(** * Tradelog: the trade analytics of the journal's front end

A shallow embedding of the computations that the [Analytics] page
(loss metrics, loss percentage, loss insights) and the [TradingPlan]
page (goal progress and goal status) perform over the records fetched
from the API, followed by the properties proved about them.

Modelling conventions.
- A finite JavaScript number is an exact rational ([Q]); the values a
  division by zero produces ([Infinity], [-Infinity], [NaN]) are the
  other constructors of [JS.Num].  Rounding, overflow and the sign of
  zero are left out there; where a property depends on them (the
  clamp of goal progress), the computation is modelled a second time
  on binary64 numbers (see [Double]).
- A nullable field is an [option]; [None] is [null].
- A timestamp is the number of milliseconds [new Date(_)] yields for
  it ([Z]); date strings that do not parse are not modelled.
- An array is a [list]; where the source sorts an array in place, the
  array lives in a heap of arrays, next to the built-in objects that
  the property lookups of the code can reach (see [Imperative]).
- The object used as a dictionary is an association list in property
  creation order. *)

From Stdlib Require Import String Ascii List Bool Arith ZArith NArith QArith Qround Qabs.
From Stdlib Require Import Lia Lqa Permutation Sorted.
From Stdlib Require Floats.
Import ListNotations.

Set Implicit Arguments.

Close Scope Q_scope.
Close Scope Z_scope.

(* ================================================================= *)
(** * Part I: definitions *)
(* ================================================================= *)

(** ** The JavaScript runtime, as far as the pages use it *)

Module JS.

(** Numbers: finite values and the three special values. *)
Inductive Num : Type :=
| Fin (q : Q)
| PosInf
| NegInf
| NaN.

(** [a < b] on finite numbers, as a boolean. *)
Definition Qltb (a b : Q) : bool := negb (Qle_bool b a).

(** [a / b] for finite [a] and [b]: never raises; a zero divisor gives
    an infinity of the sign of [a], or [NaN] for [0 / 0]. *)
Definition div (a b : Q) : Num :=
  if Qeq_bool b 0%Q then
    if Qeq_bool a 0%Q then NaN
    else if Qltb 0%Q a then PosInf else NegInf
  else Fin (a / b)%Q.

(** [x * c] for a finite constant [c]. *)
Definition mul (x : Num) (c : Q) : Num :=
  match x with
  | Fin q => Fin (q * c)%Q
  | NaN => NaN
  | PosInf => if Qeq_bool c 0%Q then NaN else if Qltb 0%Q c then PosInf else NegInf
  | NegInf => if Qeq_bool c 0%Q then NaN else if Qltb 0%Q c then NegInf else PosInf
  end.

(** [Math.min(x, c)] for a finite constant [c]. *)
Definition Math_min (x : Num) (c : Q) : Num :=
  match x with
  | Fin q => Fin (if Qle_bool q c then q else c)
  | PosInf => Fin c
  | NegInf => NegInf
  | NaN => NaN
  end.

(** [x >= c] for a finite constant [c]; any comparison with [NaN] is
    false. *)
Definition geb (x : Num) (c : Q) : bool :=
  match x with
  | Fin q => Qle_bool c q
  | PosInf => true
  | NegInf => false
  | NaN => false
  end.

(** [Math.ceil] of a finite number. *)
Definition Math_ceil (q : Q) : Z := Qceiling q.

(** [new Date(v)] as its time value: [null] converts to the number 0,
    that is the epoch. *)
Definition new_Date (v : option Z) : Z :=
  match v with
  | Some ms => ms
  | None => 0%Z
  end.

(** A nullable number in a numeric context: [null] converts to 0. *)
Definition ToNumber (v : option Q) : Q :=
  match v with
  | Some q => q
  | None => 0%Q
  end.

(** [Array.prototype.filter] and [slice(0, n)] build new arrays. *)
Definition Array_filter {A : Type} (p : A -> bool) (l : list A) : list A :=
  filter p l.

Definition Array_slice0 {A : Type} (n : nat) (l : list A) : list A :=
  firstn n l.

(** [Array.prototype.sort(compareFn)]: the sort is stable, and an
    element moves behind another one exactly when [compareFn] is
    positive on the two.  With a consistent comparator the result of a
    stable sort is unique, so it is modelled by stable insertion. *)
Section Sort.
Context {A : Type} (compareFn : A -> A -> Q).

Definition after (a b : A) : bool := Qltb 0%Q (compareFn a b).

Fixpoint insert (x : A) (l : list A) : list A :=
  match l with
  | [] => [x]
  | y :: l' => if after x y then y :: insert x l' else x :: l
  end.

Definition Array_sort (l : list A) : list A := fold_right insert [] l.
End Sort.

(** Property keys.  An array index is the canonical decimal spelling of
    an integer between 0 and 2^32 - 2. *)
Definition digit (c : ascii) : option N :=
  let n := N_of_ascii c in
  if (48 <=? n)%N && (n <=? 57)%N then Some (n - 48)%N else None.

Fixpoint digits (s : string) (acc : N) : option N :=
  match s with
  | EmptyString => Some acc
  | String c s' =>
      match digit c with
      | Some d => digits s' (acc * 10 + d)%N
      | None => None
      end
  end.

Definition array_index (s : string) : option N :=
  match s with
  | EmptyString => None
  | String "0"%char EmptyString => Some 0%N
  | String "0"%char _ => None
  | _ =>
      match digits s 0%N with
      | Some n => if (n <=? 4294967294)%N then Some n else None
      | None => None
      end
  end.

Definition is_array_index (s : string) : bool :=
  match array_index s with
  | Some _ => true
  | None => false
  end.

Definition index_of (s : string) : Q :=
  match array_index s with
  | Some n => inject_Z (Z.of_N n)
  | None => 0%Q
  end.

(** The property names every object literal inherits from
    [Object.prototype]; each of them holds an object (a function, or
    the prototype itself), so looking one up gives a truthy value. *)
Definition Object_prototype_names : list string :=
  [ "constructor"; "hasOwnProperty"; "isPrototypeOf";
    "propertyIsEnumerable"; "toLocaleString"; "toString"; "valueOf";
    "__proto__"; "__defineGetter__"; "__defineSetter__";
    "__lookupGetter__"; "__lookupSetter__" ]%string.

Definition inherited (k : string) : bool :=
  existsb (String.eqb k) Object_prototype_names.

(** An object literal used as a dictionary with values in [V]: its own
    properties, in creation order. *)
Section Object.
Context {V : Type}.

Definition Obj : Type := list (string * V).

Fixpoint own (o : Obj) (k : string) : option V :=
  match o with
  | [] => None
  | (k', v) :: o' => if String.eqb k k' then Some v else own o' k
  end.

(** [o[k] = v]: an existing property keeps its place, a new one is
    created last. *)
Fixpoint set (o : Obj) (k : string) (v : V) : Obj :=
  match o with
  | [] => [(k, v)]
  | (k', v') :: o' =>
      if String.eqb k k' then (k', v) :: o' else (k', v') :: set o' k v
  end.

(** What [o[k]] evaluates to. *)
Inductive Lookup : Type :=
| OwnValue (v : V)
| InheritedObject
| Undefined.

Definition get (o : Obj) (k : string) : Lookup :=
  match own o k with
  | Some v => OwnValue v
  | None => if inherited k then InheritedObject else Undefined
  end.

(** [Object.entries(o)]: array indices first, in ascending numeric
    order, then the other names in creation order. *)
Definition by_index (a b : string * V) : Q :=
  (index_of (fst a) - index_of (fst b))%Q.

Definition Object_entries (o : Obj) : list (string * V) :=
  Array_sort by_index (filter (fun e => is_array_index (fst e)) o)
  ++ filter (fun e => negb (is_array_index (fst e))) o.
End Object.

End JS.

(** ** Records fetched from the API *)

(** A trade; only the fields the analytics read are kept (the others are
    carried along unread). *)
Record Trade : Type := {
  trade_id : nat;
  currency_pair : string;
  exit_price : option Q;
  exit_time : option Z;
  profit_loss : option Q
}.

(** The statistics of [GET /analytics/stats]. *)
Record Stats : Type := {
  total_trades : nat;
  win_rate : Q;
  total_profit_loss : Q;
  average_win : Q;
  average_loss : Q;
  best_trade : Q;
  worst_trade : Q
}.

(** A goal of [GET /goals]. *)
Record Goal : Type := {
  target_amount : Q;
  target_date : Z;
  completed : bool
}.

(** ** Analytics page: [calculateLossMetrics] *)

(** [t.exit_price !== null] *)
Definition is_closed (t : Trade) : bool :=
  match exit_price t with
  | Some _ => true
  | None => false
  end.

(** [t.profit_loss < 0]; a [null] profit converts to 0 and is no loss. *)
Definition is_loss (t : Trade) : bool :=
  JS.Qltb (JS.ToNumber (profit_loss t)) 0%Q.

(** [(a, b) => new Date(a.exit_time) - new Date(b.exit_time)] *)
Definition by_exit_time_asc (a b : Trade) : Q :=
  inject_Z (JS.new_Date (exit_time a) - JS.new_Date (exit_time b)).

(** [(a, b) => new Date(b.exit_time) - new Date(a.exit_time)] *)
Definition by_exit_time_desc (a b : Trade) : Q :=
  inject_Z (JS.new_Date (exit_time b) - JS.new_Date (exit_time a)).

(** The body of the streak loop, on the two counters
    [(maxStreak, currentStreak)]. *)
Definition streak_step (st : nat * nat) (trade : Trade) : nat * nat :=
  let '(maxStreak, currentStreak) := st in
  if is_loss trade then
    let currentStreak := S currentStreak in
    (Nat.max maxStreak currentStreak, currentStreak)
  else (maxStreak, 0).

(** The value [{ count, total }] kept per currency pair. *)
Record PairData : Type := {
  data_count : nat;
  data_total : Q
}.

(** The body of the [lossByPair] loop, as the object it leaves behind.
    Under a name inherited from [Object.prototype] the two updates land
    on a built-in object instead: [Imperative.record_loss] follows
    them. *)
Definition record_loss (lossByPair : JS.Obj (V:=PairData)) (trade : Trade)
  : JS.Obj (V:=PairData) :=
  let k := currency_pair trade in
  let lossByPair :=
    match JS.get lossByPair k with
    | JS.Undefined => JS.set lossByPair k {| data_count := 0; data_total := 0%Q |}
    | _ => lossByPair
    end in
  match JS.get lossByPair k with
  | JS.OwnValue d =>
      JS.set lossByPair k
        {| data_count := S (data_count d);
           data_total := (data_total d + JS.ToNumber (profit_loss trade))%Q |}
  | _ => lossByPair
  end.

(** An element [{ pair, count, total }] of the result's [lossByPair]. *)
Record PairLoss : Type := {
  pair : string;
  count : nat;
  total : Q
}.

Definition pair_loss_of (e : string * PairData) : PairLoss :=
  {| pair := fst e; count := data_count (snd e); total := data_total (snd e) |}.

(** [(a, b) => a.total - b.total] *)
Definition by_total_asc (a b : PairLoss) : Q := (total a - total b)%Q.

Record LossMetrics : Type := {
  totalLosses : nat;
  longestStreak : nat;
  lossByPair : list PairLoss;
  recentLosses : list Trade
}.

(** [calculateLossMetrics], as a function of the [trades] it closes over.
    The two arrays it sorts in place are the ones it has just built with
    [filter]. *)
Definition calculateLossMetrics (trades : list Trade) : LossMetrics :=
  let closedTrades := JS.Array_filter is_closed trades in
  let losingTrades := JS.Array_filter is_loss closedTrades in
  let '(maxStreak, _) :=
    fold_left streak_step (JS.Array_sort by_exit_time_asc closedTrades) (0, 0) in
  let lossByPair := fold_left record_loss losingTrades [] in
  {| totalLosses := length losingTrades;
     longestStreak := maxStreak;
     lossByPair :=
       JS.Array_slice0 5
         (JS.Array_sort by_total_asc (map pair_loss_of (JS.Object_entries lossByPair)));
     recentLosses :=
       JS.Array_slice0 5 (JS.Array_sort by_exit_time_desc losingTrades) |}.

(** ** [calculateLossMetrics] with its effects

The source sorts [closedTrades] and [losingTrades] in place, and its
[lossByPair] loop looks the pair up in a plain object, whose prototype
chain leads to the built-in objects of the realm.  Here every array
is an object on a heap: [filter] and [slice] allocate, and [sort]
overwrites the array it is called on and returns that same array.
The realm holds, for the built-in objects that the names of
[Object.prototype] resolve to, the two properties the loop can write
on them. *)

Module Imperative.

Definition ref : Type := nat.
Definition heap : Type := list (list Trade).

(** The own properties [count] and [total] of a built-in object;
    [None] when the object has no such property. *)
Record Written : Type := {
  own_count : option JS.Num;
  own_total : option JS.Num
}.

Definition unwritten : Written := {| own_count := None; own_total := None |}.

(** The built-in objects, under the name of [Object.prototype] that
    resolves to them: ["constructor"] is [Object], ["__proto__"] is
    [Object.prototype] itself, the other names are its methods.  An
    object that is not listed has neither property, as in a fresh
    realm. *)
Definition Realm : Type := JS.Obj (V:=Written).

Definition fresh_realm : Realm := [].

Record State : Type := {
  arrays : heap;
  realm : Realm
}.

(** A call returns a value and a state, or raises a [TypeError]. *)
Inductive Outcome (A : Type) : Type :=
| Raised
| Returned (a : A) (st : State).

Arguments Raised {A}.
Arguments Returned {A} a st.

Definition M (A : Type) : Type := State -> Outcome A.

Definition ret {A : Type} (a : A) : M A := fun st => Returned a st.

Definition raise {A : Type} : M A := fun _ => Raised.

Definition bind {A B : Type} (m : M A) (k : A -> M B) : M B :=
  fun st =>
    match m st with
    | Raised => Raised
    | Returned a st' => k a st'
    end.

Notation "x <- m ;; k" := (bind m (fun x => k))
  (at level 61, m at next level, right associativity).

(** *** Arrays *)

Definition deref (r : ref) : M (list Trade) :=
  fun st => Returned (nth r (arrays st) []) st.

Definition alloc (l : list Trade) : M ref :=
  fun st =>
    Returned (length (arrays st))
      {| arrays := arrays st ++ [l]; realm := realm st |}.

Fixpoint update (r : ref) (l : list Trade) (h : heap) : heap :=
  match h, r with
  | [], _ => []
  | _ :: h', 0 => l :: h'
  | a :: h', S r' => a :: update r' l h'
  end.

Definition store (r : ref) (l : list Trade) : M unit :=
  fun st => Returned tt {| arrays := update r l (arrays st); realm := realm st |}.

Definition Array_filter (p : Trade -> bool) (r : ref) : M ref :=
  l <- deref r ;; alloc (JS.Array_filter p l).

Definition Array_sort (compareFn : Trade -> Trade -> Q) (r : ref) : M ref :=
  l <- deref r ;;
  _ <- store r (JS.Array_sort compareFn l) ;;
  ret r.

Definition Array_slice0 (n : nat) (r : ref) : M ref :=
  l <- deref r ;; alloc (JS.Array_slice0 n l).

Definition Array_length (r : ref) : M nat :=
  l <- deref r ;; ret (length l).

(** [r.forEach(body)], the variables the body updates gathered in [s]. *)
Fixpoint forEach {St : Type} (body : St -> Trade -> M St) (l : list Trade) (s : St)
  : M St :=
  match l with
  | [] => ret s
  | t :: l' => s' <- body s t ;; forEach body l' s'
  end.

Definition Array_forEach {St : Type} (body : St -> Trade -> M St) (s : St) (r : ref)
  : M St :=
  l <- deref r ;; forEach body l s.

(** *** Numbers and the properties of the built-in objects *)

(** [x + y] on numbers. *)
Definition plus (x y : JS.Num) : JS.Num :=
  match x, y with
  | JS.NaN, _ | _, JS.NaN => JS.NaN
  | JS.PosInf, JS.NegInf | JS.NegInf, JS.PosInf => JS.NaN
  | JS.PosInf, _ | _, JS.PosInf => JS.PosInf
  | JS.NegInf, _ | _, JS.NegInf => JS.NegInf
  | JS.Fin a, JS.Fin b => JS.Fin (a + b)%Q
  end.

(** The number a property value converts to: [undefined] gives [NaN]. *)
Definition number_of (v : option JS.Num) : JS.Num :=
  match v with
  | Some n => n
  | None => JS.NaN
  end.

(** A number is truthy unless it is 0 or [NaN]. *)
Definition truthy (n : JS.Num) : bool :=
  match n with
  | JS.NaN => false
  | JS.Fin q => negb (Qeq_bool q 0%Q)
  | _ => true
  end.

Definition own_props (r : Realm) (name : string) : Written :=
  match JS.own r name with
  | Some w => w
  | None => unwritten
  end.

(** Reading a property of a built-in object: its own one, or else the
    one it inherits from [Object.prototype], where every chain ends. *)
Definition read_count (name : string) : M (option JS.Num) :=
  fun st =>
    Returned
      match own_count (own_props (realm st) name) with
      | Some n => Some n
      | None =>
          if String.eqb name "__proto__" then None
          else own_count (own_props (realm st) "__proto__")
      end st.

Definition read_total (name : string) : M (option JS.Num) :=
  fun st =>
    Returned
      match own_total (own_props (realm st) name) with
      | Some n => Some n
      | None =>
          if String.eqb name "__proto__" then None
          else own_total (own_props (realm st) "__proto__")
      end st.

(** Writing a property of a built-in object creates or overwrites its
    own one. *)
Definition write_count (name : string) (n : JS.Num) : M unit :=
  fun st =>
    Returned tt
      {| arrays := arrays st;
         realm :=
           JS.set (realm st) name
             {| own_count := Some n;
                own_total := own_total (own_props (realm st) name) |} |}.

Definition write_total (name : string) (n : JS.Num) : M unit :=
  fun st =>
    Returned tt
      {| arrays := arrays st;
         realm :=
           JS.set (realm st) name
             {| own_count := own_count (own_props (realm st) name);
                own_total := Some n |} |}.

(** *** The [lossByPair] loop *)

(** What [lossByPair[k]] evaluates to: an entry of the object itself, a
    built-in object found under a name of [Object.prototype], a number
    found as a property written on [Object.prototype], or
    [undefined]. *)
Inductive Value : Type :=
| Entry (d : PairData)
| BuiltIn (name : string)
| Number (n : JS.Num)
| Undefined.

Definition lookup (lossByPair : JS.Obj (V:=PairData)) (k : string) : M Value :=
  fun st =>
    Returned
      match JS.own lossByPair k with
      | Some d => Entry d
      | None =>
          if JS.inherited k then BuiltIn k
          else if String.eqb k "count" then
            match own_count (own_props (realm st) "__proto__") with
            | Some n => Number n
            | None => Undefined
            end
          else if String.eqb k "total" then
            match own_total (own_props (realm st) "__proto__") with
            | Some n => Number n
            | None => Undefined
            end
          else Undefined
      end st.

(** [!v] *)
Definition falsy (v : Value) : bool :=
  match v with
  | Entry _ => false
  | BuiltIn _ => false
  | Number n => negb (truthy n)
  | Undefined => true
  end.

(** The body of the loop, statement by statement.  The module is strict
    code: writing a property on a number raises. *)
Definition record_loss (lossByPair : JS.Obj (V:=PairData)) (trade : Trade)
  : M (JS.Obj (V:=PairData)) :=
  let k := currency_pair trade in
  (* if (!lossByPair[k]) lossByPair[k] = { count: 0, total: 0 } *)
  v <- lookup lossByPair k ;;
  lossByPair <-
    ret (if falsy v
         then JS.set lossByPair k {| data_count := 0; data_total := 0%Q |}
         else lossByPair) ;;
  (* lossByPair[k].count++ *)
  v <- lookup lossByPair k ;;
  lossByPair <-
    match v with
    | Entry d =>
        ret (JS.set lossByPair k
               {| data_count := S (data_count d); data_total := data_total d |})
    | BuiltIn b =>
        c <- read_count b ;;
        _ <- write_count b (plus (number_of c) (JS.Fin 1%Q)) ;;
        ret lossByPair
    | Number _ => raise
    | Undefined => raise
    end ;;
  (* lossByPair[k].total += trade.profit_loss *)
  v <- lookup lossByPair k ;;
  match v with
  | Entry d =>
      ret (JS.set lossByPair k
             {| data_count := data_count d;
                data_total := (data_total d + JS.ToNumber (profit_loss trade))%Q |})
  | BuiltIn b =>
      t <- read_total b ;;
      _ <- write_total b
             (plus (number_of t) (JS.Fin (JS.ToNumber (profit_loss trade)))) ;;
      ret lossByPair
  | Number _ => raise
  | Undefined => raise
  end.

(** The body of the streak loop only updates its two counters. *)
Definition streak_loop_body (st : nat * nat) (trade : Trade) : M (nat * nat) :=
  ret (streak_step st trade).

(** [trades] is the array held by the component's state. *)
Definition calculateLossMetrics (trades : ref) : M LossMetrics :=
  closedTrades <- Array_filter is_closed trades ;;
  losingTrades <- Array_filter is_loss closedTrades ;;
  sorted <- Array_sort by_exit_time_asc closedTrades ;;
  streaks <- Array_forEach streak_loop_body (0, 0) sorted ;;
  lossByPair <- Array_forEach record_loss [] losingTrades ;;
  n <- Array_length losingTrades ;;
  sortedLosses <- Array_sort by_exit_time_desc losingTrades ;;
  recent <- Array_slice0 5 sortedLosses ;;
  recentLosses <- deref recent ;;
  ret {| totalLosses := n;
         longestStreak := fst streaks;
         lossByPair :=
           JS.Array_slice0 5
             (JS.Array_sort by_total_asc
                (map pair_loss_of (JS.Object_entries lossByPair)));
         recentLosses := recentLosses |}.

End Imperative.

(** ** Analytics page: the "Losses Analysis" tab *)

(** The lines of the "Loss Insights" card. *)
Inductive Insight : Type :=
| WorstTradeLine (lost : Q)
| StreakWarning (streak : nat)
| RiskSizingSuggestion
| WorstPairLine (pair : string).

(** [{cond && <div>...</div>}] *)
Definition when {A : Type} (cond : bool) (x : A) : list A :=
  if cond then [x] else [].

(** The content of the "Loss Insights" card. *)
Definition lossInsights (stats : Stats) (lossMetrics : LossMetrics) : list Insight :=
  [WorstTradeLine (Qabs (worst_trade stats))]
  ++ when (2 <? longestStreak lossMetrics) (StreakWarning (longestStreak lossMetrics))
  ++ when (JS.Qltb (average_loss stats) (-50)%Q) RiskSizingSuggestion
  ++ match lossByPair lossMetrics with
     | worst :: _ => [WorstPairLine (pair worst)]
     | [] => []
     end.

(** [(lossMetrics.totalLosses / stats.total_trades) * 100] *)
Definition lossPercentage (stats : Stats) (lossMetrics : LossMetrics) : JS.Num :=
  JS.mul (JS.div (inject_Z (Z.of_nat (totalLosses lossMetrics)))
                 (inject_Z (Z.of_nat (total_trades stats)))) 100%Q.

(** What the tab shows: the loss cards (of which the percentage of the
    "Total Losses" card and the insights are kept here), or the "Perfect
    Record!" card. *)
Inductive LossesTab : Type :=
| LossAnalysis (percentOfTrades : JS.Num) (insights : list Insight)
| PerfectRecord.

(** [lossMetrics && lossMetrics.totalLosses > 0 ? ... : ...] *)
Definition lossesTab (stats : Stats) (lossMetrics : option LossMetrics) : LossesTab :=
  match lossMetrics with
  | Some lm =>
      if 0 <? totalLosses lm
      then LossAnalysis (lossPercentage stats lm) (lossInsights stats lm)
      else PerfectRecord
  | None => PerfectRecord
  end.

(** The insight lines the page emits for given statistics and loss
    metrics. *)
Definition buildInsights (stats : Stats) (lossMetrics : LossMetrics) : list Insight :=
  match lossesTab stats (Some lossMetrics) with
  | LossAnalysis _ insights => insights
  | PerfectRecord => []
  end.

(** The percentage of losses the page computes, if it computes one. *)
Definition percentOfTrades (stats : Stats) (lossMetrics : LossMetrics) : option JS.Num :=
  match lossesTab stats (Some lossMetrics) with
  | LossAnalysis p _ => Some p
  | PerfectRecord => None
  end.

(** ** Trading plan page: goal progress and status *)

(** [stats] is [null] until the statistics are loaded. *)
Definition calculateProgress (stats : option Stats) (goal : Goal) : JS.Num :=
  match stats with
  | None => JS.Fin 0%Q
  | Some s =>
      JS.Math_min
        (JS.mul (JS.div (total_profit_loss s) (target_amount goal)) 100%Q)
        100%Q
  end.

Definition ms_per_day : Z := (1000 * 60 * 60 * 24)%Z.

(** [Math.ceil((new Date(goal.target_date) - new Date()) / ms_per_day)],
    with the current instant [now] as a parameter. *)
Definition daysLeft (now : Z) (goal : Goal) : Z :=
  JS.Math_ceil (inject_Z (target_date goal - now) / inject_Z ms_per_day)%Q.

Definition getGoalStatus (stats : option Stats) (now : Z) (goal : Goal) : string :=
  let progress := calculateProgress stats goal in
  let daysLeft := daysLeft now goal in
  if completed goal then "completed"%string
  else if JS.geb progress 100%Q then "achieved"%string
  else if (daysLeft <? 0)%Z then "expired"%string
  else if (daysLeft <=? 7)%Z then "urgent"%string
  else "active"%string.

(** ** Vocabulary of the specification *)

(** A run of [n] consecutive losing trades in the sequence [l]. *)
Definition LossRun (l : list Trade) (n : nat) : Prop :=
  exists before run rest,
    l = before ++ run ++ rest /\ length run = n /\ Forall (fun t => is_loss t = true) run.

(** [n] is the length of the longest run of consecutive losing trades. *)
Definition LongestLossRun (l : list Trade) (n : nat) : Prop :=
  LossRun l n /\ forall m, LossRun l m -> m <= n.

(** Chronological order: ascending [exit_time]. *)
Definition Chronological (l : list Trade) : Prop :=
  StronglySorted
    (fun a b => (JS.new_Date (exit_time a) <= JS.new_Date (exit_time b))%Z) l.

(** The closed trades of a trade list, and the losing ones among them. *)
Definition closed_trades (trades : list Trade) : list Trade :=
  filter is_closed trades.

Definition losing_trades (trades : list Trade) : list Trade :=
  filter is_loss (closed_trades trades).

(** The trades of a list that are on a given currency pair, and the
    losing trades on that pair. *)
Definition on_pair (p : string) (l : list Trade) : list Trade :=
  filter (fun t => String.eqb (currency_pair t) p) l.

Definition losses_on (p : string) (trades : list Trade) : list Trade :=
  on_pair p (losing_trades trades).

(** The sum of the profits of a list of trades. *)
Definition sum_profit_loss (l : list Trade) : Q :=
  fold_right (fun t acc => (JS.ToNumber (profit_loss t) + acc)%Q) 0%Q l.

(** The entries of the [lossByPair] object, before they are sorted and
    cut to five. *)
Definition loss_groups (trades : list Trade) : list PairLoss :=
  map pair_loss_of
    (JS.Object_entries (fold_left record_loss (losing_trades trades) [])).

(** The result for a list without losing trades. *)
Definition zero_metrics : LossMetrics :=
  {| totalLosses := 0; longestStreak := 0; lossByPair := []; recentLosses := [] |}.

(** The kinds of insight lines. *)
Definition cites_worst_trade (i : Insight) : bool :=
  match i with WorstTradeLine _ => true | _ => false end.

Definition is_streak_warning (i : Insight) : bool :=
  match i with StreakWarning _ => true | _ => false end.

Definition is_risk_sizing (i : Insight) : bool :=
  match i with RiskSizingSuggestion => true | _ => false end.

Definition names_a_pair (i : Insight) : bool :=
  match i with WorstPairLine _ => true | _ => false end.

(** ** Loop invariants *)

(** What the streak loop maintains after the trades of [p]: [c] is the
    length of the run of losses that ends [p], [m] the length of the
    longest run in [p]. *)
Definition TrailingRun (p : list Trade) (c : nat) : Prop :=
  (exists before run,
      p = before ++ run /\ length run = c /\ Forall (fun t => is_loss t = true) run)
  /\ (forall before run,
         p = before ++ run -> Forall (fun t => is_loss t = true) run -> length run <= c).

Definition streak_inv (p : list Trade) (st : nat * nat) : Prop :=
  LongestLossRun p (fst st) /\ TrailingRun p (snd st) /\ snd st <= fst st.

(** One more loss on the entry [d], and the entry a pair starts with. *)
Definition bump (d : PairData) (trade : Trade) : PairData :=
  {| data_count := S (data_count d);
     data_total := (data_total d + JS.ToNumber (profit_loss trade))%Q |}.

Definition no_losses : PairData := {| data_count := 0; data_total := 0%Q |}.

(** The entry [d] of pair [k] accounts for the trades of [done]. *)
Definition tally_ok (done : list Trade) (k : string) (d : PairData) : Prop :=
  JS.inherited k = false
  /\ data_count d = length (on_pair k done)
  /\ (data_total d == sum_profit_loss (on_pair k done))%Q
  /\ 1 <= data_count d.

(** The object [o] accounts for the trades of [done]. *)
Definition Tally (o : JS.Obj (V:=PairData)) (done : list Trade) : Prop :=
  NoDup (map fst o)
  /\ (forall k d, JS.own o k = Some d -> tally_ok done k d)
  /\ (forall t, In t done -> JS.inherited (currency_pair t) = false ->
                JS.own o (currency_pair t) <> None).

(** What is true of an element of the loss groups. *)
Definition group_ok (trades : list Trade) (e : PairLoss) : Prop :=
  JS.inherited (pair e) = false
  /\ count e = length (losses_on (pair e) trades)
  /\ (total e == sum_profit_loss (losses_on (pair e) trades))%Q
  /\ 1 <= count e.

(** The arrays a call of [Imperative.calculateLossMetrics] leaves on the
    heap: the sorted [closedTrades], the sorted [losingTrades] and the
    [recentLosses] slice. *)
Definition allocated (trades : list Trade) : Imperative.heap :=
  [ JS.Array_sort by_exit_time_asc (closed_trades trades);
    JS.Array_sort by_exit_time_desc (losing_trades trades);
    JS.Array_slice0 5 (JS.Array_sort by_exit_time_desc (losing_trades trades)) ].

(** A realm in which [Object.prototype] has no [count] and no [total],
    or only the [NaN]s that the loop itself writes there. *)
Definition clean (r : Imperative.Realm) : Prop :=
  (Imperative.own_count (Imperative.own_props r "__proto__") = None
   \/ Imperative.own_count (Imperative.own_props r "__proto__") = Some JS.NaN)
  /\ (Imperative.own_total (Imperative.own_props r "__proto__") = None
      \/ Imperative.own_total (Imperative.own_props r "__proto__") = Some JS.NaN).

(** ** Sample records *)

(** A winning closed trade, an open position and a losing closed trade. *)
Definition winning_trade : Trade :=
  {| trade_id := 1; currency_pair := "EURUSD";
     exit_price := Some (11 # 10)%Q; exit_time := Some 1000%Z;
     profit_loss := Some 25%Q |}.

Definition open_trade : Trade :=
  {| trade_id := 2; currency_pair := "GBPUSD";
     exit_price := None; exit_time := None; profit_loss := None |}.

Definition losing_trade : Trade :=
  {| trade_id := 3; currency_pair := "EURUSD";
     exit_price := Some (9 # 10)%Q; exit_time := Some 500%Z;
     profit_loss := Some (-40)%Q |}.

(** A goal of 1000, and statistics with a given [total_profit_loss]. *)
Definition sample_goal : Goal :=
  {| target_amount := 1000%Q; target_date := 864000000%Z; completed := false |}.

Definition stats_with (total : Q) : Stats :=
  {| total_trades := 12; win_rate := 50%Q; total_profit_loss := total;
     average_win := 80%Q; average_loss := (-60)%Q;
     best_trade := 300%Q; worst_trade := (-150)%Q |}.

(** Four closed trades in ascending [exit_time] order, with profits
    -10, -20, +5 and -30. *)
Definition closed_trade (n : nat) (time : Z) (profit : Q) : Trade :=
  {| trade_id := n; currency_pair := "USDJPY";
     exit_price := Some 150%Q; exit_time := Some time;
     profit_loss := Some profit |}.

Definition scenario_trades : list Trade :=
  [ closed_trade 11 1000%Z (-10)%Q; closed_trade 12 2000%Z (-20)%Q;
    closed_trade 13 3000%Z 5%Q; closed_trade 14 4000%Z (-30)%Q ].

(** A losing trade whose pair is spelled like a member of
    [Object.prototype]. *)
Definition oddly_named_loss : Trade :=
  {| trade_id := 4; currency_pair := "constructor";
     exit_price := Some 1%Q; exit_time := Some 700%Z;
     profit_loss := Some (-5)%Q |}.

(** A goal with a target amount of 0. *)
Definition zero_target_goal : Goal :=
  {| target_amount := 0%Q; target_date := 864000000%Z; completed := false |}.

(** Statistics that count no trade. *)
Definition stats_without_trades : Stats :=
  {| total_trades := 0; win_rate := 0%Q; total_profit_loss := 0%Q;
     average_win := 0%Q; average_loss := 0%Q;
     best_trade := 0%Q; worst_trade := 0%Q |}.

(** ** Analytics page: the charts and the page as a whole *)

(** [winLossData]: the values of the "Wins" and of the "Losses" slice. *)
Definition winLossData (stats : Stats) : Q * Q :=
  let total := inject_Z (Z.of_nat (total_trades stats)) in
  ((total * (win_rate stats / 100))%Q, (total * (1 - win_rate stats / 100))%Q).

(** [avgData]: the values of the "Avg Win" and of the "Avg Loss" bar. *)
Definition avgData (stats : Stats) : Q * Q :=
  (average_win stats, Qabs (average_loss stats)).

(** What a render of a component comes to: reading a property of [null]
    raises a [TypeError]. *)
Inductive Render (A : Type) : Type :=
| TypeError
| Rendered (a : A).

Arguments TypeError {A}.
Arguments Rendered {A} a.

(** What the Analytics page shows (of the overview tab the two charts
    computed from the statistics are kept). *)
Inductive AnalyticsView : Type :=
| AnalyticsLoading
| AnalyticsPage (winLoss : Q * Q) (avg : Q * Q) (losses : LossesTab).

(** The body of the [Analytics] component after its hooks, for the values
    of its state: the early return while loading, the chart data read
    from [stats], [lossMetrics = stats ? calculateLossMetrics() : null]
    and the tabs. *)
Definition Analytics (loading : bool) (stats : option Stats) (trades : list Trade)
  : Render AnalyticsView :=
  if loading then Rendered AnalyticsLoading
  else
    match stats with
    | None => TypeError
    | Some s =>
        let winLoss := winLossData s in
        let avg := avgData s in
        let lossMetrics :=
          match stats with
          | Some _ => Some (calculateLossMetrics trades)
          | None => None
          end in
        Rendered (AnalyticsPage winLoss avg (lossesTab s lossMetrics))
    end.

(** ** Trading plan page: the goal cards *)

(** [goals.filter(g => !g.completed).length], the "Active Goals" card. *)
Definition activeGoals (goals : list Goal) : nat :=
  length (JS.Array_filter (fun g => negb (completed g)) goals).

(** [v || 0] for a number [v] that may be missing: 0 is falsy too. *)
Definition or_zero (v : option Q) : Q :=
  match v with
  | Some q => if Qeq_bool q 0%Q then 0%Q else q
  | None => 0%Q
  end.

(** [goal.target_amount - (stats?.total_profit_loss || 0)], the
    "Remaining" amount. *)
Definition remaining (stats : option Stats) (goal : Goal) : Q :=
  (target_amount goal - or_zero (option_map total_profit_loss stats))%Q.

(** [daysLeft > 0 ? daysLeft : 0], the "Days Left" number. *)
Definition daysLeftShown (now : Z) (goal : Goal) : Z :=
  let daysLeft := daysLeft now goal in
  if (0 <? daysLeft)%Z then daysLeft else 0%Z.

(** [status === 'achieved' && !goal.completed], the condition of the
    "Complete" button and of the "Goal Achieved!" badge. *)
Definition completeButton (stats : option Stats) (now : Z) (goal : Goal) : bool :=
  String.eqb (getGoalStatus stats now goal) "achieved" && negb (completed goal).

(** ** Trade detail page: the performance card *)

Inductive Glow : Type := profit_glow | loss_glow.

Inductive TrendIcon : Type := TrendingUp | TrendingDown.

(** The card's content: the result with its icon and sign prefix, or
    "Trade still open". *)
Inductive Performance : Type :=
| Result (icon : TrendIcon) (sign : string) (amount : Q)
| StillOpen.

(** [trade.profit_loss !== null && trade.profit_loss >= 0
     ? 'profit-glow' : 'loss-glow'] *)
Definition performanceGlow (trade : Trade) : Glow :=
  match profit_loss trade with
  | Some q => if Qle_bool 0%Q q then profit_glow else loss_glow
  | None => loss_glow
  end.

Definition performance (trade : Trade) : Performance :=
  match profit_loss trade with
  | Some q =>
      if Qle_bool 0%Q q then Result TrendingUp "+" q
      else Result TrendingDown EmptyString q
  | None => StillOpen
  end.

(** ** More vocabulary *)

(** Elements of [l] with equal keys are equal. *)
Definition distinct_keys {A : Type} (key : A -> Q) (l : list A) : Prop :=
  forall x y, In x l -> In y l -> (key x == key y)%Q -> x = y.

(** The time value of a trade's [exit_time]. *)
Definition exit_ms (t : Trade) : Z := JS.new_Date (exit_time t).

(** Most recent first: descending [exit_time]. *)
Definition MostRecentFirst (l : list Trade) : Prop :=
  StronglySorted (fun a b => (exit_ms b <= exit_ms a)%Z) l.

(** ** Goal progress on binary64 numbers

[calculateProgress] once more, on the numbers JavaScript computes
with: IEEE 754 binary64 values, with rounding, overflow to an
infinity, underflow to a zero that keeps its sign, and [NaN].  The
function reads one field of [stats] and one of [goal]. *)

Module Double.
Import Floats.

(** [Math.min(x, y)]: [NaN] if either is [NaN], and [-0] counts as
    smaller than [+0]. *)
Definition Math_min (x y : float) : float :=
  if is_nan x || is_nan y then nan
  else if (x <? y)%float then x
  else if (y <? x)%float then y
  else if get_sign x then x else y.

Record Stats : Type := { total_profit_loss : float }.

Record Goal : Type := { target_amount : float }.

(** [stats] is [null] until the statistics are loaded. *)
Definition calculateProgress (stats : option Stats) (goal : Goal) : float :=
  match stats with
  | None => 0%float
  | Some s =>
      Math_min (total_profit_loss s / target_amount goal * 100)%float 100%float
  end.

(** The sign bit of a value that is not [NaN]. *)
Definition has_sign (s : bool) (x : spec_float) : Prop :=
  match x with
  | S754_zero s' | S754_infinity s' | S754_finite s' _ _ => s' = s
  | S754_nan => False
  end.

End Double.

(** ** An order on numbers *)

(** [x <= y]; false as soon as one of the two is [NaN]. *)
Definition Num_le (x y : JS.Num) : Prop :=
  match x, y with
  | JS.NaN, _ | _, JS.NaN => False
  | JS.NegInf, _ | _, JS.PosInf => True
  | JS.Fin a, JS.Fin b => (a <= b)%Q
  | _, _ => False
  end.

(* ================================================================= *)
(** * Part II: properties *)
(* ================================================================= *)

(** ** Rational comparisons as booleans *)

Lemma Qltb_lt (a b : Q) : JS.Qltb a b = true <-> (a < b)%Q.
Proof.
  unfold JS.Qltb. rewrite negb_true_iff.
  split; intro H.
  - apply Qnot_le_lt. intro Hle. apply Qle_bool_iff in Hle. congruence.
  - destruct (Qle_bool b a) eqn:E; [|reflexivity].
    apply Qle_bool_iff in E. lra.
Qed.

Lemma Qltb_ge (a b : Q) : JS.Qltb a b = false <-> (b <= a)%Q.
Proof.
  unfold JS.Qltb. rewrite negb_false_iff. apply Qle_bool_iff.
Qed.

Lemma Qeq_bool_false (a b : Q) : Qeq_bool a b = false <-> ~ (a == b)%Q.
Proof.
  split; intro H.
  - intro E. apply Qeq_bool_iff in E. congruence.
  - destruct (Qeq_bool a b) eqn:E; [|reflexivity].
    apply Qeq_bool_iff in E. contradiction.
Qed.

(** ** [Array.prototype.sort] *)

Section SortFacts.
Context {A : Type} (compareFn : A -> A -> Q).

Lemma insert_perm (x : A) (l : list A) :
  Permutation (JS.insert compareFn x l) (x :: l).
Proof.
  induction l as [|y l IH]; simpl.
  - reflexivity.
  - destruct (JS.after compareFn x y).
    + rewrite IH. apply perm_swap.
    + reflexivity.
Qed.

Lemma Array_sort_perm (l : list A) :
  Permutation (JS.Array_sort compareFn l) l.
Proof.
  induction l as [|x l IH]; simpl.
  - reflexivity.
  - rewrite insert_perm. now constructor.
Qed.

Lemma Array_sort_Forall (P : A -> Prop) (l : list A) :
  Forall P l -> Forall P (JS.Array_sort compareFn l).
Proof.
  intro H. eapply Permutation_Forall; [|exact H].
  symmetry. apply Array_sort_perm.
Qed.

(** Comparators that subtract a numeric key. *)
Variable key : A -> Q.
Hypothesis compare_key : forall a b, (compareFn a b == key a - key b)%Q.

Let ascending (a b : A) : Prop := (key a <= key b)%Q.

Lemma after_true (a b : A) : JS.after compareFn a b = true -> (key b < key a)%Q.
Proof.
  unfold JS.after. rewrite Qltb_lt, compare_key. lra.
Qed.

Lemma after_false (a b : A) : JS.after compareFn a b = false -> (key a <= key b)%Q.
Proof.
  unfold JS.after. rewrite Qltb_ge, compare_key. lra.
Qed.

Lemma insert_sorted (x : A) (l : list A) :
  StronglySorted ascending l -> StronglySorted ascending (JS.insert compareFn x l).
Proof.
  induction 1 as [|y l Hs IH Hy]; simpl.
  - repeat constructor.
  - destruct (JS.after compareFn x y) eqn:E.
    + constructor; [exact IH|].
      eapply Permutation_Forall; [symmetry; apply insert_perm|].
      constructor; [|exact Hy].
      apply after_true in E. unfold ascending. lra.
    + apply after_false in E.
      constructor; [now constructor|].
      constructor; [exact E|].
      eapply Forall_impl; [|exact Hy].
      unfold ascending. intros z Hz. simpl in Hz. lra.
Qed.

Lemma Array_sort_sorted (l : list A) :
  StronglySorted ascending (JS.Array_sort compareFn l).
Proof.
  induction l as [|x l IH]; simpl.
  - constructor.
  - now apply insert_sorted.
Qed.

(** The sort is stable: an array already in order is left as it is. *)
Lemma Array_sort_already_sorted (l : list A) :
  StronglySorted ascending l -> JS.Array_sort compareFn l = l.
Proof.
  induction 1 as [|x l Hs IH Hx]; simpl.
  - reflexivity.
  - rewrite IH. destruct l as [|y l]; simpl; [reflexivity|].
    inversion Hx as [|? ? Hxy _]; subst.
    destruct (JS.after compareFn x y) eqn:E; [|reflexivity].
    apply after_true in E. unfold ascending in Hxy. lra.
Qed.
End SortFacts.

(** ** The chronological order of the closed trades *)

Lemma by_exit_time_asc_key (a b : Trade) :
  (by_exit_time_asc a b ==
   inject_Z (JS.new_Date (exit_time a)) - inject_Z (JS.new_Date (exit_time b)))%Q.
Proof.
  unfold by_exit_time_asc, Z.sub.
  now rewrite inject_Z_plus, inject_Z_opp.
Qed.

Lemma Chronological_iff (l : list Trade) :
  Chronological l <->
  StronglySorted
    (fun a b => (inject_Z (JS.new_Date (exit_time a))
                 <= inject_Z (JS.new_Date (exit_time b)))%Q) l.
Proof.
  unfold Chronological.
  split; intro H; (induction H as [|x l Hs IH Hx]; constructor; [exact IH|]);
    (eapply Forall_impl; [|exact Hx]); intros y Hy; simpl in *.
  - now rewrite <- Zle_Qle.
  - now rewrite Zle_Qle.
Qed.

Lemma sort_chronological (l : list Trade) :
  Chronological (JS.Array_sort by_exit_time_asc l).
Proof.
  apply Chronological_iff.
  apply (Array_sort_sorted by_exit_time_asc
           (fun t => inject_Z (JS.new_Date (exit_time t)))).
  exact by_exit_time_asc_key.
Qed.

Lemma sort_of_chronological (l : list Trade) :
  Chronological l -> JS.Array_sort by_exit_time_asc l = l.
Proof.
  intro H. apply Chronological_iff in H.
  apply (Array_sort_already_sorted by_exit_time_asc
           (fun t => inject_Z (JS.new_Date (exit_time t)))); [|exact H].
  exact by_exit_time_asc_key.
Qed.

(** ** The streak loop *)

Lemma app_snoc_inv {A : Type} (p a b : list A) (x : A) :
  p ++ [x] = a ++ b ->
  (b = [] /\ a = p ++ [x]) \/ (exists b', b = b' ++ [x] /\ p = a ++ b').
Proof.
  intro H.
  destruct b as [|y b'] using rev_ind.
  - left. split; [reflexivity|]. now rewrite app_nil_r in H.
  - right. rewrite app_assoc in H.
    apply app_inj_tail in H. destruct H as [Hp Hx]. subst y.
    now exists b'.
Qed.

Lemma streak_inv_init : streak_inv [] (0, 0).
Proof.
  repeat split; simpl.
  - exists [], [], []. repeat split. constructor.
  - intros m (before & run & rest & E & Hlen & _).
    symmetry in E. apply app_eq_nil in E. destruct E as [_ E].
    apply app_eq_nil in E. destruct E as [E _]. subst. reflexivity.
  - exists [], []. repeat split. constructor.
  - intros before run E _. symmetry in E.
    apply app_eq_nil in E. destruct E as [_ E]. subst. reflexivity.
  - lia.
Qed.

Lemma LossRun_snoc (p : list Trade) (x : Trade) (n : nat) :
  LossRun p n -> LossRun (p ++ [x]) n.
Proof.
  intros (before & run & rest & E & Hlen & Hall).
  exists before, run, (rest ++ [x]). subst p.
  repeat split; [|exact Hlen|exact Hall].
  now rewrite <- !app_assoc.
Qed.

Lemma streak_inv_step (p : list Trade) (st : nat * nat) (x : Trade) :
  streak_inv p st -> streak_inv (p ++ [x]) (streak_step st x).
Proof.
  destruct st as [m c]. unfold streak_inv, streak_step. simpl.
  intros ((Hrun & Hmax) & ((b0 & r0 & E0 & Hlen0 & Hall0) & Htmax) & Hcm).
  destruct (is_loss x) eqn:Hx; simpl.
  - (* a loss extends the trailing run *)
    assert (Htrail : forall before run,
               p ++ [x] = before ++ run ->
               Forall (fun t => is_loss t = true) run -> length run <= S c).
    { intros before run E Hall.
      apply app_snoc_inv in E. destruct E as [[-> _] | (run' & -> & E)].
      - simpl. lia.
      - apply Forall_app in Hall. destruct Hall as [Hall _].
        rewrite length_app. simpl.
        specialize (Htmax _ _ E Hall). lia. }
    repeat split.
    + destruct (Nat.max_spec m (S c)) as [[_ ->] | [_ ->]].
      * exists b0, (r0 ++ [x]), []. subst p.
        repeat split.
        -- now rewrite app_nil_r, <- app_assoc.
        -- rewrite length_app. simpl. lia.
        -- apply Forall_app. split; [exact Hall0|]. now repeat constructor.
      * now apply LossRun_snoc.
    + intros k (before & run & rest & E & Hlen & Hall).
      rewrite app_assoc in E.
      apply app_snoc_inv in E. destruct E as [[-> E] | (rest' & -> & E)].
      * symmetry in E. specialize (Htrail _ _ E Hall). lia.
      * assert (k <= m); [|lia].
        apply Hmax. exists before, run, rest'.
        repeat split; [|exact Hlen|exact Hall].
        now rewrite app_assoc.
    + exists b0, (r0 ++ [x]). subst p.
      repeat split.
      * now rewrite <- app_assoc.
      * rewrite length_app. simpl. lia.
      * apply Forall_app. split; [exact Hall0|]. now repeat constructor.
    + exact Htrail.
    + lia.
  - (* any other trade ends it *)
    assert (Htrail : forall before run,
               p ++ [x] = before ++ run ->
               Forall (fun t => is_loss t = true) run -> length run <= 0).
    { intros before run E Hall.
      apply app_snoc_inv in E. destruct E as [[-> _] | (run' & -> & E)].
      - simpl. lia.
      - apply Forall_app in Hall. destruct Hall as [_ Hall].
        inversion Hall; subst. congruence. }
    repeat split.
    + now apply LossRun_snoc.
    + intros k (before & run & rest & E & Hlen & Hall).
      rewrite app_assoc in E.
      apply app_snoc_inv in E. destruct E as [[-> E] | (rest' & -> & E)].
      * symmetry in E. specialize (Htrail _ _ E Hall). lia.
      * apply Hmax. exists before, run, rest'.
        repeat split; [|exact Hlen|exact Hall].
        now rewrite app_assoc.
    + exists (p ++ [x]), []. repeat split.
      * now rewrite app_nil_r.
      * constructor.
    + exact Htrail.
    + lia.
Qed.

Lemma streak_inv_loop (l p : list Trade) (st : nat * nat) :
  streak_inv p st -> streak_inv (p ++ l) (fold_left streak_step l st).
Proof.
  revert p st. induction l as [|x l IH]; intros p st H; simpl.
  - now rewrite app_nil_r.
  - replace (p ++ x :: l) with ((p ++ [x]) ++ l) by now rewrite <- app_assoc.
    apply IH. now apply streak_inv_step.
Qed.

Lemma streak_loop_longest (l : list Trade) :
  LongestLossRun l (fst (fold_left streak_step l (0, 0))).
Proof.
  apply (streak_inv_loop l streak_inv_init).
Qed.

Lemma longestStreak_eq (trades : list Trade) :
  longestStreak (calculateLossMetrics trades) =
  fst (fold_left streak_step
         (JS.Array_sort by_exit_time_asc (closed_trades trades)) (0, 0)).
Proof.
  unfold calculateLossMetrics, closed_trades, JS.Array_filter.
  destruct (fold_left streak_step _ (0, 0)) as [m c]. reflexivity.
Qed.

(** C1.  [longestStreak] is the length of the longest run of consecutive
    losing trades in the closed trades put in ascending [exit_time]
    order (the order the stable sort gives them), as found by the single
    left-to-right pass of [streak_step]; and four closed trades with
    profits -10, -20, +5, -30, given in ascending [exit_time] order, have
    a longest streak of 2. *)
Theorem longestStreak_longest_loss_run :
  (forall trades : list Trade,
      let chronological := JS.Array_sort by_exit_time_asc (closed_trades trades) in
      Permutation chronological (closed_trades trades)
      /\ Chronological chronological
      /\ longestStreak (calculateLossMetrics trades)
         = fst (fold_left streak_step chronological (0, 0))
      /\ LongestLossRun chronological (longestStreak (calculateLossMetrics trades)))
  /\ (forall t1 t2 t3 t4 : Trade,
         Forall (fun t => is_closed t = true) [t1; t2; t3; t4] ->
         (JS.ToNumber (profit_loss t1) == -10)%Q ->
         (JS.ToNumber (profit_loss t2) == -20)%Q ->
         (JS.ToNumber (profit_loss t3) == 5)%Q ->
         (JS.ToNumber (profit_loss t4) == -30)%Q ->
         Chronological [t1; t2; t3; t4] ->
         longestStreak (calculateLossMetrics [t1; t2; t3; t4]) = 2).
Proof.
  split.
  - intros trades chronological. subst chronological.
    repeat split.
    + apply Array_sort_perm.
    + apply sort_chronological.
    + apply longestStreak_eq.
    + rewrite longestStreak_eq. apply streak_loop_longest.
    + rewrite longestStreak_eq. apply streak_loop_longest.
  - intros t1 t2 t3 t4 Hclosed H1 H2 H3 H4 Hchron.
    rewrite longestStreak_eq.
    assert (Hc : closed_trades [t1; t2; t3; t4] = [t1; t2; t3; t4]).
    { unfold closed_trades.
      apply forallb_filter_id. apply forallb_forall.
      apply Forall_forall. exact Hclosed. }
    rewrite Hc, (sort_of_chronological Hchron). simpl.
    assert (L1 : is_loss t1 = true) by (apply Qltb_lt; lra).
    assert (L2 : is_loss t2 = true) by (apply Qltb_lt; lra).
    assert (L3 : is_loss t3 = false) by (apply Qltb_ge; lra).
    assert (L4 : is_loss t4 = true) by (apply Qltb_lt; lra).
    unfold streak_step.
    rewrite L1; simpl. rewrite L2; simpl. rewrite L3; simpl. rewrite L4; simpl.
    reflexivity.
Qed.

(** The scenario on concrete trades, in either order of arrival. *)
Example scenario_longest_streak :
  longestStreak (calculateLossMetrics scenario_trades) = 2
  /\ longestStreak (calculateLossMetrics (rev scenario_trades)) = 2.
Proof. split; reflexivity. Qed.

(** ** The dictionary object *)

Section ObjectFacts.
Context {V : Type}.
Implicit Types (o : JS.Obj (V:=V)) (k : string) (v : V).

Lemma own_set_same o k v : JS.own (JS.set o k v) k = Some v.
Proof.
  induction o as [|[k' v'] o IH]; simpl.
  - now rewrite String.eqb_refl.
  - destruct (String.eqb k k') eqn:E; simpl; rewrite E; [reflexivity|exact IH].
Qed.

Lemma own_set_other o k k' v : k' <> k -> JS.own (JS.set o k v) k' = JS.own o k'.
Proof.
  intro Hne. induction o as [|[k0 v0] o IH]; simpl.
  - apply String.eqb_neq in Hne. now rewrite Hne.
  - destruct (String.eqb k k0) eqn:E; simpl.
    + apply String.eqb_eq in E. subst k0.
      apply String.eqb_neq in Hne. now rewrite Hne.
    + now rewrite IH.
Qed.

Lemma set_set o k v v' : JS.set (JS.set o k v) k v' = JS.set o k v'.
Proof.
  induction o as [|[k0 v0] o IH]; simpl.
  - now rewrite String.eqb_refl.
  - destruct (String.eqb k k0) eqn:E; simpl; rewrite E; [reflexivity|now rewrite IH].
Qed.

Lemma own_None o k : JS.own o k = None <-> ~ In k (map fst o).
Proof.
  induction o as [|[k0 v0] o IH]; simpl.
  - tauto.
  - destruct (String.eqb k k0) eqn:E.
    + apply String.eqb_eq in E. subst. split; [discriminate|tauto].
    + apply String.eqb_neq in E. rewrite IH. split; [|tauto].
      intros H [H'|H']; [congruence|tauto].
Qed.

Lemma own_In o k v : JS.own o k = Some v -> In (k, v) o.
Proof.
  induction o as [|[k0 v0] o IH]; simpl; [discriminate|].
  destruct (String.eqb k k0) eqn:E.
  - apply String.eqb_eq in E. intros [= ->]. subst. now left.
  - intro H. right. now apply IH.
Qed.

Lemma In_own o k v : NoDup (map fst o) -> In (k, v) o -> JS.own o k = Some v.
Proof.
  induction o as [|[k0 v0] o IH]; simpl; [tauto|].
  intros Hnd [H|H].
  - injection H as -> ->. now rewrite String.eqb_refl.
  - inversion Hnd as [|? ? Hnotin Hnd']; subst.
    destruct (String.eqb k k0) eqn:E.
    + apply String.eqb_eq in E. subst k0. exfalso. apply Hnotin.
      change k with (fst (k, v)). now apply in_map.
    + now apply IH.
Qed.

Lemma keys_set o k v :
  map fst (JS.set o k v) =
  match JS.own o k with
  | Some _ => map fst o
  | None => map fst o ++ [k]
  end.
Proof.
  induction o as [|[k0 v0] o IH]; simpl.
  - reflexivity.
  - destruct (String.eqb k k0) eqn:E; simpl; [reflexivity|].
    rewrite IH. now destruct (JS.own o k).
Qed.

Lemma filter_split_perm {A : Type} (f : A -> bool) (l : list A) :
  Permutation (filter f l ++ filter (fun x => negb (f x)) l) l.
Proof.
  induction l as [|x l IH]; simpl.
  - reflexivity.
  - destruct (f x); simpl.
    + now constructor.
    + rewrite <- Permutation_middle. now constructor.
Qed.

Lemma Object_entries_perm o : Permutation (JS.Object_entries o) o.
Proof.
  unfold JS.Object_entries.
  rewrite Array_sort_perm. apply filter_split_perm.
Qed.
End ObjectFacts.

(** ** The [lossByPair] loop *)

(** The loop body, by cases on the key: it updates the pair's own entry,
    creates it, or (for a name inherited from [Object.prototype]) leaves
    the object as it is. *)
Lemma record_loss_cases (o : JS.Obj (V:=PairData)) (t : Trade) :
  record_loss o t =
  match JS.own o (currency_pair t) with
  | Some d => JS.set o (currency_pair t) (bump d t)
  | None =>
      if JS.inherited (currency_pair t) then o
      else JS.set o (currency_pair t) (bump no_losses t)
  end.
Proof.
  unfold record_loss, JS.get.
  destruct (JS.own o (currency_pair t)) as [d|] eqn:E.
  - now rewrite E.
  - destruct (JS.inherited (currency_pair t)) eqn:Hi.
    + now rewrite E.
    + rewrite own_set_same, set_set. reflexivity.
Qed.

Lemma sum_profit_loss_app (l1 l2 : list Trade) :
  (sum_profit_loss (l1 ++ l2) == sum_profit_loss l1 + sum_profit_loss l2)%Q.
Proof.
  induction l1 as [|x l1 IH]; simpl.
  - lra.
  - rewrite IH. lra.
Qed.

Lemma on_pair_snoc_same (l : list Trade) (t : Trade) :
  on_pair (currency_pair t) (l ++ [t]) = on_pair (currency_pair t) l ++ [t].
Proof.
  unfold on_pair. rewrite filter_app. simpl. now rewrite String.eqb_refl.
Qed.

Lemma on_pair_snoc_other (k : string) (l : list Trade) (t : Trade) :
  k <> currency_pair t -> on_pair k (l ++ [t]) = on_pair k l.
Proof.
  intro Hne. unfold on_pair. rewrite filter_app. simpl.
  destruct (String.eqb (currency_pair t) k) eqn:E.
  - apply String.eqb_eq in E. congruence.
  - apply app_nil_r.
Qed.

Lemma Tally_init : Tally [] [].
Proof.
  repeat split; simpl.
  - constructor.
  - discriminate.
  - discriminate.
  - discriminate.
  - discriminate.
  - intros t [].
Qed.

Lemma tally_ok_other (done : list Trade) (t : Trade) (k : string) (d : PairData) :
  k <> currency_pair t -> tally_ok done k d -> tally_ok (done ++ [t]) k d.
Proof.
  intros Hne (Hi & Hc & Ht & H1).
  unfold tally_ok. now rewrite on_pair_snoc_other.
Qed.

Lemma tally_ok_bump (done : list Trade) (t : Trade) (d : PairData) :
  tally_ok done (currency_pair t) d ->
  tally_ok (done ++ [t]) (currency_pair t) (bump d t).
Proof.
  intros (Hi & Hc & Ht & H1).
  unfold tally_ok. rewrite on_pair_snoc_same, length_app, sum_profit_loss_app.
  simpl. repeat split; [exact Hi|lia| |lia].
  rewrite Ht. lra.
Qed.

Lemma on_pair_absent (o : JS.Obj (V:=PairData)) (done : list Trade) (k : string) :
  Tally o done -> JS.own o k = None -> JS.inherited k = false -> on_pair k done = [].
Proof.
  intros (_ & _ & Hcov) Hown Hi.
  unfold on_pair.
  induction done as [|x done IH]; simpl; [reflexivity|].
  destruct (String.eqb (currency_pair x) k) eqn:E.
  - apply String.eqb_eq in E. subst k.
    exfalso. apply (Hcov x); [now left|exact Hi|exact Hown].
  - apply IH. intros t Ht. apply Hcov. now right.
Qed.

Lemma Tally_step (o : JS.Obj (V:=PairData)) (done : list Trade) (t : Trade) :
  Tally o done -> Tally (record_loss o t) (done ++ [t]).
Proof.
  intro HT. pose proof HT as (Hnd & Hok & Hcov).
  rewrite record_loss_cases.
  destruct (JS.own o (currency_pair t)) as [d|] eqn:Hown.
  - (* the pair has an entry *)
    split; [|split].
    + now rewrite keys_set, Hown.
    + intros k d' Hk.
      destruct (string_dec k (currency_pair t)) as [->|Hne].
      * rewrite own_set_same in Hk. injection Hk as <-.
        apply tally_ok_bump. now apply Hok.
      * rewrite own_set_other in Hk by exact Hne.
        apply tally_ok_other; [exact Hne|]. now apply Hok.
    + intros t' Hin Hi.
      destruct (string_dec (currency_pair t') (currency_pair t)) as [->|Hne].
      * now rewrite own_set_same.
      * rewrite own_set_other by exact Hne.
        apply in_app_or in Hin. destruct Hin as [Hin|[<-|[]]]; [|congruence].
        now apply Hcov.
  - destruct (JS.inherited (currency_pair t)) eqn:Hinh.
    + (* an inherited name: nothing is recorded *)
      split; [exact Hnd|]. split.
      * intros k d Hk. apply tally_ok_other; [|now apply Hok].
        intros ->. destruct (Hok _ _ Hk) as (Hi & _). congruence.
      * intros t' Hin Hi.
        apply in_app_or in Hin. destruct Hin as [Hin|[<-|[]]]; [|congruence].
        now apply Hcov.
    + (* a new pair: its entry is created last *)
      split; [|split].
      * rewrite keys_set, Hown.
        apply NoDup_app; [exact Hnd|repeat constructor; intros []|].
        intros k Hk [<-|[]]. now apply own_None in Hown.
      * intros k d Hk.
        destruct (string_dec k (currency_pair t)) as [->|Hne].
        -- rewrite own_set_same in Hk. injection Hk as <-.
           unfold tally_ok.
           rewrite on_pair_snoc_same, length_app, sum_profit_loss_app.
           rewrite (on_pair_absent _ HT Hown Hinh). simpl.
           repeat split; [exact Hinh|lra|lia].
        -- rewrite own_set_other in Hk by exact Hne.
           apply tally_ok_other; [exact Hne|]. now apply Hok.
      * intros t' Hin Hi.
        destruct (string_dec (currency_pair t') (currency_pair t)) as [->|Hne].
        -- now rewrite own_set_same.
        -- rewrite own_set_other by exact Hne.
           apply in_app_or in Hin. destruct Hin as [Hin|[<-|[]]]; [|congruence].
           now apply Hcov.
Qed.

Lemma Tally_loop (l : list Trade) (o : JS.Obj (V:=PairData)) (done : list Trade) :
  Tally o done -> Tally (fold_left record_loss l o) (done ++ l).
Proof.
  revert o done. induction l as [|t l IH]; intros o done H; simpl.
  - now rewrite app_nil_r.
  - replace (done ++ t :: l) with ((done ++ [t]) ++ l) by now rewrite <- app_assoc.
    apply IH. now apply Tally_step.
Qed.

(** ** Prefixes of arrays *)

Section SliceFacts.
Context {A : Type}.
Implicit Types (l : list A) (n : nat).

Lemma slice_incl n l : incl (JS.Array_slice0 n l) l.
Proof.
  unfold JS.Array_slice0. intros x Hx.
  rewrite <- (firstn_skipn n l). apply in_or_app. now left.
Qed.

Lemma slice_Forall (P : A -> Prop) n l :
  Forall P l -> Forall P (JS.Array_slice0 n l).
Proof.
  intro H. apply Forall_forall. intros x Hx.
  apply (proj1 (Forall_forall P l) H). now apply (slice_incl n).
Qed.

Lemma slice_sorted (R : A -> A -> Prop) n l :
  StronglySorted R l -> StronglySorted R (JS.Array_slice0 n l).
Proof.
  unfold JS.Array_slice0. intro H. revert n.
  induction H as [|x l Hs IH Hx]; intros [|n]; simpl; try constructor.
  - apply IH.
  - exact (slice_Forall n Hx).
Qed.

Lemma slice_length n l : length (JS.Array_slice0 n l) <= n.
Proof. apply firstn_le_length. Qed.
End SliceFacts.

(** ** The loss groups *)

Lemma lossByPair_eq (trades : list Trade) :
  lossByPair (calculateLossMetrics trades) =
  JS.Array_slice0 5 (JS.Array_sort by_total_asc (loss_groups trades)).
Proof.
  unfold calculateLossMetrics, loss_groups, losing_trades, closed_trades, JS.Array_filter.
  destruct (fold_left streak_step _ (0, 0)) as [m c]. reflexivity.
Qed.

Lemma totalLosses_eq (trades : list Trade) :
  totalLosses (calculateLossMetrics trades) = length (losing_trades trades).
Proof.
  unfold calculateLossMetrics, losing_trades, closed_trades, JS.Array_filter.
  destruct (fold_left streak_step _ (0, 0)) as [m c]. reflexivity.
Qed.

Lemma recentLosses_eq (trades : list Trade) :
  recentLosses (calculateLossMetrics trades) =
  JS.Array_slice0 5 (JS.Array_sort by_exit_time_desc (losing_trades trades)).
Proof.
  unfold calculateLossMetrics, losing_trades, closed_trades, JS.Array_filter.
  destruct (fold_left streak_step _ (0, 0)) as [m c]. reflexivity.
Qed.

Lemma Tally_losing (trades : list Trade) :
  Tally (fold_left record_loss (losing_trades trades) []) (losing_trades trades).
Proof.
  apply (Tally_loop (losing_trades trades) Tally_init).
Qed.

Lemma loss_groups_ok (trades : list Trade) :
  Forall (group_ok trades) (loss_groups trades).
Proof.
  destruct (Tally_losing trades) as (Hnd & Hok & _).
  unfold loss_groups. apply Forall_map.
  eapply Permutation_Forall; [symmetry; apply Object_entries_perm|].
  apply Forall_forall. intros [k d] Hin.
  apply (In_own _ _ _ Hnd) in Hin.
  exact (Hok _ _ Hin).
Qed.

Lemma loss_groups_NoDup (trades : list Trade) :
  NoDup (map pair (loss_groups trades)).
Proof.
  destruct (Tally_losing trades) as (Hnd & _ & _).
  unfold loss_groups. rewrite map_map. simpl.
  eapply Permutation_NoDup; [|exact Hnd].
  apply Permutation_map. symmetry. apply Object_entries_perm.
Qed.

Lemma loss_groups_cover (trades : list Trade) (t : Trade) :
  In t (losing_trades trades) ->
  JS.inherited (currency_pair t) = false ->
  In (currency_pair t) (map pair (loss_groups trades)).
Proof.
  intros Hin Hi.
  destruct (Tally_losing trades) as (_ & _ & Hcov).
  specialize (Hcov t Hin Hi).
  unfold loss_groups. rewrite map_map. simpl.
  eapply Permutation_in;
    [apply Permutation_map; symmetry; apply Object_entries_perm|].
  destruct (JS.own _ (currency_pair t)) as [d|] eqn:E; [|congruence].
  apply own_In in E. change (currency_pair t) with (fst (currency_pair t, d)).
  now apply in_map.
Qed.

Lemma by_total_asc_key (a b : PairLoss) : (by_total_asc a b == total a - total b)%Q.
Proof. reflexivity. Qed.

Lemma sorted_groups_sorted (trades : list Trade) :
  StronglySorted (fun a b => (total a <= total b)%Q)
    (JS.Array_sort by_total_asc (loss_groups trades)).
Proof.
  apply (Array_sort_sorted by_total_asc total). exact by_total_asc_key.
Qed.

(** The [lossByPair] result is the first five of the loss groups
    put in ascending order of [total].  The groups carry pairwise
    different pairs; the group of a pair counts the losing trades on that
    pair and sums their [profit_loss]; every losing trade belongs to the
    group of its pair (unless the pair is spelled like a name inherited
    from [Object.prototype], which the object never records).  So the
    result is sorted ascending by [total] and has at most five
    elements. *)
Theorem lossByPair_groups_sorted_top5 :
  forall trades : list Trade,
  exists groups : list PairLoss,
    NoDup (map pair groups)
    /\ Forall (fun e =>
                 count e = length (losses_on (pair e) trades)
                 /\ (total e == sum_profit_loss (losses_on (pair e) trades))%Q)
              groups
    /\ Forall (fun t =>
                 In (currency_pair t) (map pair groups)
                 \/ JS.inherited (currency_pair t) = true)
              (losing_trades trades)
    /\ StronglySorted (fun a b => (total a <= total b)%Q) groups
    /\ lossByPair (calculateLossMetrics trades) = firstn 5 groups
    /\ StronglySorted (fun a b => (total a <= total b)%Q)
         (lossByPair (calculateLossMetrics trades))
    /\ length (lossByPair (calculateLossMetrics trades)) <= 5.
Proof.
  intro trades.
  exists (JS.Array_sort by_total_asc (loss_groups trades)).
  pose proof (Array_sort_perm by_total_asc (loss_groups trades)) as Hperm.
  rewrite lossByPair_eq.
  split; [|split; [|split; [|split; [|split; [|split]]]]].
  - eapply Permutation_NoDup; [|apply loss_groups_NoDup].
    apply Permutation_map. symmetry. exact Hperm.
  - apply Array_sort_Forall.
    eapply Forall_impl; [|apply loss_groups_ok].
    intros e (_ & Hc & Ht & _). now split.
  - apply Forall_forall. intros t Hin.
    destruct (JS.inherited (currency_pair t)) eqn:Hi; [now right|left].
    eapply Permutation_in; [apply Permutation_map; symmetry; exact Hperm|].
    now apply loss_groups_cover.
  - apply sorted_groups_sorted.
  - reflexivity.
  - apply slice_sorted, sorted_groups_sorted.
  - apply slice_length.
Qed.

(** C6.  Not every losing trade is put in a group.  A closed losing
    trade on the pair ["constructor"] is counted in [totalLosses] but
    gets no group: looking the name up in the plain object finds the
    member inherited from [Object.prototype], so no entry is ever
    created for it, and [lossByPair] is empty although there is a
    losing trade. *)
Theorem inherited_name_gets_no_group :
  losing_trades [oddly_named_loss] = [oddly_named_loss]
  /\ currency_pair oddly_named_loss = "constructor"%string
  /\ totalLosses (calculateLossMetrics [oddly_named_loss]) = 1
  /\ lossByPair (calculateLossMetrics [oddly_named_loss]) = [].
Proof. repeat split. Qed.

(** ** Losses are negative *)

Lemma losing_trades_loss (trades : list Trade) :
  Forall (fun t => is_loss t = true) (losing_trades trades).
Proof.
  apply Forall_forall. intros t Hin.
  unfold losing_trades in Hin. now apply filter_In in Hin.
Qed.

Lemma sum_losses_nonpos (l : list Trade) :
  Forall (fun t => is_loss t = true) l -> (sum_profit_loss l <= 0)%Q.
Proof.
  induction 1 as [|x l Hx _ IH]; simpl.
  - lra.
  - apply Qltb_lt in Hx. lra.
Qed.

Lemma sum_losses_neg (l : list Trade) :
  Forall (fun t => is_loss t = true) l -> 1 <= length l -> (sum_profit_loss l < 0)%Q.
Proof.
  intros H Hlen. destruct H as [|x l Hx Hl]; simpl in *; [lia|].
  apply Qltb_lt in Hx. pose proof (sum_losses_nonpos Hl). lra.
Qed.

Lemma losses_on_loss (p : string) (trades : list Trade) :
  Forall (fun t => is_loss t = true) (losses_on p trades).
Proof.
  apply Forall_forall. intros t Hin.
  unfold losses_on, on_pair in Hin. apply filter_In in Hin.
  destruct Hin as [Hin _].
  exact (proj1 (Forall_forall _ _) (losing_trades_loss trades) t Hin).
Qed.

(** C9.  Every element of the [lossByPair] result counts at least one
    loss and has a strictly negative [total]. *)
Theorem lossByPair_count_positive_total_negative :
  forall trades : list Trade,
    Forall (fun e => 1 <= count e /\ (total e < 0)%Q)
      (lossByPair (calculateLossMetrics trades)).
Proof.
  intro trades. rewrite lossByPair_eq.
  apply slice_Forall, Array_sort_Forall.
  eapply Forall_impl; [|apply loss_groups_ok].
  intros e (_ & Hc & Ht & H1). split; [exact H1|].
  rewrite Ht. apply sum_losses_neg; [apply losses_on_loss|lia].
Qed.

(** ** No losing trade *)

Lemma LossMetrics_eta (m : LossMetrics) :
  m = {| totalLosses := totalLosses m;
         longestStreak := longestStreak m;
         lossByPair := lossByPair m;
         recentLosses := recentLosses m |}.
Proof. now destruct m. Qed.

Lemma losing_trades_none (trades : list Trade) :
  Forall (fun t => is_closed t && is_loss t = false) trades ->
  losing_trades trades = [].
Proof.
  unfold losing_trades, closed_trades.
  induction 1 as [|t l Ht _ IH]; simpl; [reflexivity|].
  destruct (is_closed t); simpl; [|exact IH].
  simpl in Ht. now rewrite Ht.
Qed.

Lemma streak_loop_no_loss (l : list Trade) :
  Forall (fun t => is_loss t = false) l ->
  forall m, fold_left streak_step l (m, 0) = (m, 0).
Proof.
  induction 1 as [|t l Ht _ IH]; intro m; simpl; [reflexivity|].
  now rewrite Ht, IH.
Qed.

Lemma closed_trades_no_loss (trades : list Trade) :
  Forall (fun t => is_closed t && is_loss t = false) trades ->
  Forall (fun t => is_loss t = false) (closed_trades trades).
Proof.
  intro H. apply Forall_forall. intros t Hin.
  unfold closed_trades in Hin. apply filter_In in Hin.
  destruct Hin as [Hin Hc].
  pose proof (proj1 (Forall_forall _ _) H t Hin) as Ht. simpl in Ht.
  now rewrite Hc in Ht.
Qed.

(** C7.  When no closed trade of the list has a negative [profit_loss],
    the result is exactly the zero result. *)
Theorem no_losing_trade_zero_metrics :
  forall trades : list Trade,
    Forall (fun t => is_closed t && is_loss t = false) trades ->
    calculateLossMetrics trades = zero_metrics.
Proof.
  intros trades H.
  rewrite (LossMetrics_eta (calculateLossMetrics trades)).
  rewrite totalLosses_eq, longestStreak_eq, lossByPair_eq, recentLosses_eq.
  unfold loss_groups.
  rewrite (losing_trades_none H).
  rewrite (streak_loop_no_loss
             (Array_sort_Forall by_exit_time_asc (closed_trades_no_loss H))).
  reflexivity.
Qed.

(** C7 at a winning closed trade and an open position. *)
Lemma no_losing_trade_zero_metrics_witness :
  Forall (fun t => is_closed t && is_loss t = false) [winning_trade; open_trade]
  /\ calculateLossMetrics [winning_trade; open_trade] = zero_metrics.
Proof.
  split.
  - repeat constructor.
  - apply (@no_losing_trade_zero_metrics [winning_trade; open_trade]).
    repeat constructor.
Defined.

(** The empty trade list is the same zero result. *)
Lemma empty_trades_zero_metrics : calculateLossMetrics [] = zero_metrics.
Proof. reflexivity. Qed.

(** ** The effects of [calculateLossMetrics] *)

Section EffectFacts.
Local Abbreviation State := Imperative.State.
Local Abbreviation Returned := Imperative.Returned.

Lemma State_eta (st : State) :
  {| Imperative.arrays := Imperative.arrays st; Imperative.realm := Imperative.realm st |} = st.
Proof. now destruct st. Qed.

Lemma nth_last (h : Imperative.heap) (a : list Trade) (rest : Imperative.heap) :
  nth (length h) (h ++ a :: rest) [] = a.
Proof. apply nth_middle. Qed.

Lemma update_last (h : Imperative.heap) (a b : list Trade) (rest : Imperative.heap) :
  Imperative.update (length h) b (h ++ a :: rest) = h ++ b :: rest.
Proof.
  induction h as [|x h IH]; simpl.
  - reflexivity.
  - now rewrite IH.
Qed.

(** A pair that is neither an entry nor an inherited name looks up as a
    falsy value in a clean realm. *)
Lemma lookup_absent (o : JS.Obj (V:=PairData)) (k : string) (st : State) :
  clean (Imperative.realm st) ->
  JS.own o k = None -> JS.inherited k = false ->
  exists v, Imperative.lookup o k st = Returned v st /\ Imperative.falsy v = true.
Proof.
  intros [Hc Ht] Hown Hi. unfold Imperative.lookup. rewrite Hown, Hi.
  destruct (String.eqb k "count").
  - destruct Hc as [-> | ->]; eexists; split; reflexivity.
  - destruct (String.eqb k "total").
    + destruct Ht as [-> | ->]; eexists; split; reflexivity.
    + eexists; split; reflexivity.
Qed.

Lemma own_props_set_same (r : Imperative.Realm) (k : string) (w : Imperative.Written) :
  Imperative.own_props (JS.set r k w) k = w.
Proof. unfold Imperative.own_props. now rewrite own_set_same. Qed.

Lemma own_props_set_other (r : Imperative.Realm) (k k' : string) (w : Imperative.Written) :
  k' <> k -> Imperative.own_props (JS.set r k w) k' = Imperative.own_props r k'.
Proof. intro H. unfold Imperative.own_props. now rewrite own_set_other. Qed.

(** One turn of the [lossByPair] loop: the object changes as
    [record_loss] says; the realm changes only for an inherited name. *)
Lemma record_loss_run (o : JS.Obj (V:=PairData)) (t : Trade) (st : State) :
  clean (Imperative.realm st) ->
  exists r',
    Imperative.record_loss o t st
    = Returned (record_loss o t)
        {| Imperative.arrays := Imperative.arrays st; Imperative.realm := r' |}
    /\ clean r'
    /\ (JS.inherited (currency_pair t) = false -> r' = Imperative.realm st).
Proof.
  intro Hclean. rewrite record_loss_cases.
  unfold Imperative.record_loss, Imperative.bind, Imperative.ret.
  set (k := currency_pair t).
  destruct (JS.own o k) as [d|] eqn:Hown.
  - (* the pair has an entry *)
    exists (Imperative.realm st).
    unfold Imperative.lookup at 1. rewrite Hown. cbn [Imperative.falsy].
    unfold Imperative.lookup at 1. rewrite Hown.
    unfold Imperative.lookup. rewrite own_set_same, set_set.
    rewrite State_eta. unfold bump. simpl. auto.
  - destruct (JS.inherited k) eqn:Hi.
    + (* an inherited name: the writes land on the built-in object *)
      unfold Imperative.lookup. rewrite Hown, Hi. cbn [Imperative.falsy].
      rewrite Hown.
      unfold Imperative.read_count, Imperative.write_count,
        Imperative.read_total, Imperative.write_total.
      cbn [Imperative.arrays Imperative.realm]. rewrite Hown.
      cbn [Imperative.arrays Imperative.realm].
      eexists. split; [reflexivity|]. split; [|discriminate].
      destruct Hclean as [Hc Ht]. unfold clean.
      destruct (string_dec k "__proto__") as [E|E].
      * rewrite E in *. rewrite !own_props_set_same. cbn.
        split; right; f_equal;
          [destruct Hc as [-> | ->] | destruct Ht as [-> | ->]]; reflexivity.
      * rewrite !own_props_set_other by congruence. now split.
    + (* a new pair *)
      destruct (lookup_absent o k st Hclean Hown Hi) as (v & Hv & Hf).
      rewrite Hv, Hf.
      unfold Imperative.lookup. rewrite !own_set_same, !set_set.
      exists (Imperative.realm st). rewrite State_eta.
      unfold bump, no_losses. simpl. auto.
Qed.

(** The whole [lossByPair] loop. *)
Lemma record_loss_loop (l : list Trade) (o : JS.Obj (V:=PairData)) (st : State) :
  clean (Imperative.realm st) ->
  exists r',
    Imperative.forEach Imperative.record_loss l o st
    = Returned (fold_left record_loss l o)
        {| Imperative.arrays := Imperative.arrays st; Imperative.realm := r' |}
    /\ clean r'
    /\ (Forall (fun t => JS.inherited (currency_pair t) = false) l ->
        r' = Imperative.realm st).
Proof.
  revert o st. induction l as [|t l IH]; intros o st Hclean.
  - exists (Imperative.realm st). cbn. rewrite State_eta. auto.
  - destruct (record_loss_run o t st Hclean) as (r1 & E1 & C1 & U1).
    destruct (IH (record_loss o t)
                {| Imperative.arrays := Imperative.arrays st;
                   Imperative.realm := r1 |} C1)
      as (r2 & E2 & C2 & U2).
    exists r2. cbn [Imperative.forEach fold_left]. unfold Imperative.bind.
    rewrite E1, E2. cbn [Imperative.arrays Imperative.realm] in *.
    split; [reflexivity|]. split; [exact C2|].
    intro F. inversion F as [|? ? Ht Hl]; subst.
    rewrite (U2 Hl). now apply U1.
Qed.

(** The streak loop leaves the state alone. *)
Lemma streak_loop (l : list Trade) (s : nat * nat) (st : State) :
  Imperative.forEach Imperative.streak_loop_body l s st
  = Returned (fold_left streak_step l s) st.
Proof.
  revert s. induction l as [|t l IH]; intro s.
  - reflexivity.
  - cbn [Imperative.forEach fold_left]. unfold Imperative.bind.
    unfold Imperative.streak_loop_body at 1. unfold Imperative.ret at 1.
    apply IH.
Qed.

(** A call reads the array [trades], returns what the function
    [calculateLossMetrics] of Part I gives for its contents, and only
    adds arrays to the heap; in a clean realm it writes on a built-in
    object only for a losing trade whose pair is a name of
    [Object.prototype]. *)
Lemma calculateLossMetrics_run (st : State) (r : Imperative.ref) :
  r < length (Imperative.arrays st) ->
  clean (Imperative.realm st) ->
  exists r',
    Imperative.calculateLossMetrics r st
    = Returned (calculateLossMetrics (nth r (Imperative.arrays st) []))
        {| Imperative.arrays :=
             Imperative.arrays st ++ allocated (nth r (Imperative.arrays st) []);
           Imperative.realm := r' |}
    /\ clean r'
    /\ (Forall (fun t => JS.inherited (currency_pair t) = false)
          (losing_trades (nth r (Imperative.arrays st) [])) ->
        r' = Imperative.realm st).
Proof.
  intros Hr Hclean. destruct st as [h rl]. cbn [Imperative.arrays Imperative.realm] in *.
  set (trades := nth r h []).
  unfold Imperative.calculateLossMetrics.
  cbv beta iota delta
    [Imperative.bind Imperative.ret Imperative.deref Imperative.alloc
     Imperative.store Imperative.Array_filter Imperative.Array_sort
     Imperative.Array_slice0 Imperative.Array_length Imperative.Array_forEach
     Imperative.arrays Imperative.realm].
  fold trades.
  change (JS.Array_filter is_closed trades) with (closed_trades trades).
  rewrite (nth_last h (closed_trades trades) []).
  change (JS.Array_filter is_loss (closed_trades trades)) with (losing_trades trades).
  rewrite !length_app. cbn [length].
  rewrite <- (app_assoc h [closed_trades trades] [losing_trades trades]). cbn [app].
  rewrite (nth_last h (closed_trades trades) [losing_trades trades]).
  rewrite (update_last h (closed_trades trades) _ [losing_trades trades]).
  rewrite (nth_last h _ [losing_trades trades]).
  set (sorted := JS.Array_sort by_exit_time_asc (closed_trades trades)).
  rewrite streak_loop.
  replace (h ++ [sorted; losing_trades trades])
    with ((h ++ [sorted]) ++ [losing_trades trades])
    by now rewrite <- app_assoc.
  replace (length h + 1) with (length (h ++ [sorted]))
    by (rewrite length_app; reflexivity).
  rewrite (nth_last (h ++ [sorted]) (losing_trades trades) []).
  destruct (record_loss_loop (losing_trades trades) []
              {| Imperative.arrays := (h ++ [sorted]) ++ [losing_trades trades];
                 Imperative.realm := rl |} Hclean)
    as (r' & E & C' & U).
  cbn [Imperative.arrays Imperative.realm] in E, U.
  exists r'. rewrite E.
  rewrite (nth_last (h ++ [sorted]) (losing_trades trades) []).
  rewrite (update_last (h ++ [sorted]) (losing_trades trades) _ []).
  rewrite (nth_last (h ++ [sorted]) _ []).
  set (recent := JS.Array_sort by_exit_time_desc (losing_trades trades)).
  rewrite (nth_last ((h ++ [sorted]) ++ [recent]) (JS.Array_slice0 5 recent) []).
  unfold allocated. fold sorted. fold recent.
  rewrite <- !app_assoc. cbn [app].
  split; [|split; assumption].
  f_equal.
  rewrite (LossMetrics_eta (calculateLossMetrics trades)).
  rewrite totalLosses_eq, longestStreak_eq, lossByPair_eq, recentLosses_eq.
  reflexivity.
Qed.
End EffectFacts.

(** Called twice on the same array of trades, from a clean realm, the
    function returns the same value both times, the value the function
    of Part I gives for the contents of the array; it leaves the array,
    and every array that existed before the call, as it found them (the
    in-place sorts act on arrays the call has allocated itself), and
    when no losing trade has a pair spelled like a name of
    [Object.prototype] it leaves the realm as it found it. *)
Lemma calculateLossMetrics_called_twice :
  forall (st : Imperative.State) (r : Imperative.ref) (trades : list Trade),
    nth_error (Imperative.arrays st) r = Some trades ->
    clean (Imperative.realm st) ->
    exists st1 st2 : Imperative.State,
      Imperative.calculateLossMetrics r st
      = Imperative.Returned (calculateLossMetrics trades) st1
      /\ Imperative.calculateLossMetrics r st1
         = Imperative.Returned (calculateLossMetrics trades) st2
      /\ nth_error (Imperative.arrays st1) r = Some trades
      /\ nth_error (Imperative.arrays st2) r = Some trades
      /\ firstn (length (Imperative.arrays st)) (Imperative.arrays st1)
         = Imperative.arrays st
      /\ firstn (length (Imperative.arrays st1)) (Imperative.arrays st2)
         = Imperative.arrays st1
      /\ (Forall (fun t => JS.inherited (currency_pair t) = false)
            (losing_trades trades) ->
          Imperative.realm st1 = Imperative.realm st
          /\ Imperative.realm st2 = Imperative.realm st).
Proof.
  intros st r trades Hr Hclean.
  assert (Hlt : r < length (Imperative.arrays st))
    by (apply nth_error_Some; congruence).
  assert (Hnth : nth r (Imperative.arrays st) [] = trades)
    by now apply nth_error_nth.
  destruct (@calculateLossMetrics_run st r Hlt Hclean) as (r1 & E1 & C1 & U1).
  rewrite Hnth in E1, U1.
  set (st1 := {| Imperative.arrays := Imperative.arrays st ++ allocated trades;
                 Imperative.realm := r1 |}) in *.
  assert (Hr1 : nth_error (Imperative.arrays st1) r = Some trades)
    by (unfold st1; cbn [Imperative.arrays]; now rewrite nth_error_app1).
  assert (Hlt1 : r < length (Imperative.arrays st1))
    by (apply nth_error_Some; congruence).
  assert (Hnth1 : nth r (Imperative.arrays st1) [] = trades)
    by now apply nth_error_nth.
  destruct (@calculateLossMetrics_run st1 r Hlt1 C1) as (r2 & E2 & C2 & U2).
  rewrite Hnth1 in E2, U2.
  set (st2 := {| Imperative.arrays := Imperative.arrays st1 ++ allocated trades;
                 Imperative.realm := r2 |}) in *.
  exists st1, st2.
  split; [exact E1|]. split; [exact E2|]. split; [exact Hr1|].
  split; [|split; [|split]].
  - unfold st2. cbn [Imperative.arrays]. now rewrite nth_error_app1.
  - unfold st1. cbn [Imperative.arrays].
    rewrite firstn_app, Nat.sub_diag, firstn_all. simpl. apply app_nil_r.
  - unfold st2. cbn [Imperative.arrays].
    rewrite firstn_app, Nat.sub_diag, firstn_all. simpl. apply app_nil_r.
  - intro F. unfold st2, st1 in *. cbn [Imperative.realm] in *.
    rewrite (U2 F). split; apply (U1 F).
Qed.

(** C8.  The function is not free of side effects.  Called on an array
    that holds one closed losing trade whose pair is ["constructor"], in
    a fresh realm, it returns [totalLosses] 1 and an empty [lossByPair],
    and it leaves the properties [count] and [total], both [NaN], on the
    built-in [Object], which had neither before the call; the array of
    trades is as before.  A second call returns the same value and
    writes the same two [NaN]s again. *)
Theorem calculateLossMetrics_writes_on_Object :
  let before :=
    {| Imperative.arrays := [[oddly_named_loss]];
       Imperative.realm := Imperative.fresh_realm |} in
  let written :=
    {| Imperative.own_count := Some JS.NaN; Imperative.own_total := Some JS.NaN |} in
  exists (after after' : Imperative.State) (result : LossMetrics),
    Imperative.calculateLossMetrics 0 before = Imperative.Returned result after
    /\ result = calculateLossMetrics [oddly_named_loss]
    /\ totalLosses result = 1
    /\ lossByPair result = []
    /\ Imperative.own_props (Imperative.realm before) "constructor"
       = Imperative.unwritten
    /\ Imperative.own_props (Imperative.realm after) "constructor" = written
    /\ Imperative.realm after <> Imperative.realm before
    /\ nth_error (Imperative.arrays after) 0 = Some [oddly_named_loss]
    /\ Imperative.calculateLossMetrics 0 after = Imperative.Returned result after'
    /\ Imperative.realm after' = Imperative.realm after.
Proof.
  cbv zeta.
  eexists. eexists. eexists.
  split; [vm_compute; reflexivity|].
  split; [vm_compute; reflexivity|].
  split; [reflexivity|]. split; [reflexivity|].
  split; [reflexivity|]. split; [reflexivity|].
  split; [discriminate|].
  split; [reflexivity|].
  split; [vm_compute; reflexivity|].
  reflexivity.
Qed.

(** ** Goal progress *)

Lemma div_finite (a b : Q) : ~ (b == 0)%Q -> JS.div a b = JS.Fin (a / b)%Q.
Proof.
  intro H. unfold JS.div.
  now rewrite (proj2 (Qeq_bool_false b 0) H).
Qed.

Lemma progress_with_stats (s : Stats) (goal : Goal) :
  ~ (target_amount goal == 0)%Q ->
  calculateProgress (Some s) goal =
  JS.Fin (if Qle_bool (total_profit_loss s / target_amount goal * 100) 100
          then (total_profit_loss s / target_amount goal * 100)%Q
          else 100%Q).
Proof.
  intro H. unfold calculateProgress. now rewrite (div_finite _ H).
Qed.

(** *** On binary64 numbers

The sign of a quotient and of a product is the exclusive or of the
signs of the operands, whatever the rounding does to the magnitude. *)

Module DoubleFacts.
Import Floats.
Local Unset Implicit Arguments.

Lemma iter_pos_inv {A : Type} (P : A -> Prop) (f : A -> A) :
  (forall x, P x -> P (f x)) -> forall p x, P x -> P (iter_pos f p x).
Proof.
  intros Hf p. induction p as [p IH|p IH|]; intros x Hx; simpl; auto.
Qed.

Lemma shr_1_nonneg mrs : (0 <= shr_m mrs)%Z -> (0 <= shr_m (shr_1 mrs))%Z.
Proof.
  destruct mrs as [m r s]. simpl. intro H.
  destruct m as [|[p|p|]|p]; simpl; lia.
Qed.

Lemma shr_nonneg mrs e n : (0 <= shr_m mrs)%Z -> (0 <= shr_m (fst (shr mrs e n)))%Z.
Proof.
  intro H. destruct n as [|p|p]; simpl; try exact H.
  apply (iter_pos_inv (fun m => (0 <= shr_m m)%Z)); [apply shr_1_nonneg|exact H].
Qed.

Lemma shr_fexp_nonneg m e l :
  (0 <= m)%Z -> (0 <= shr_m (fst (shr_fexp prec emax m e l)))%Z.
Proof.
  intro H. unfold shr_fexp. apply shr_nonneg.
  destruct l as [|[| |]]; exact H.
Qed.

Lemma round_nearest_even_nonneg m l : (0 <= m)%Z -> (0 <= round_nearest_even m l)%Z.
Proof.
  intro H. destruct l as [|[| |]]; simpl; try lia.
  destruct (Z.even m); lia.
Qed.

Lemma binary_round_aux_sign s m e l :
  (0 <= m)%Z -> Double.has_sign s (binary_round_aux prec emax s m e l).
Proof.
  intro H. unfold binary_round_aux.
  pose proof (shr_fexp_nonneg m e l H) as H1.
  destruct (shr_fexp prec emax m e l) as [mrs' e'].
  simpl in H1.
  pose proof (shr_fexp_nonneg _ e' loc_Exact
                (round_nearest_even_nonneg _ (loc_of_shr_record mrs') H1)) as H2.
  destruct (shr_fexp prec emax _ e' loc_Exact) as [mrs'' e''].
  simpl in H2.
  destruct (shr_m mrs'') as [|p|p]; [reflexivity| |lia].
  destruct (e'' <=? emax - prec)%Z; reflexivity.
Qed.

Lemma SFdiv_core_nonneg m1 e1 m2 e2 :
  let '(q, _, _) := SFdiv_core_binary prec emax (Zpos m1) e1 (Zpos m2) e2 in (0 <= q)%Z.
Proof.
  unfold SFdiv_core_binary.
  set (s := (e1 - e2 - _)%Z).
  set (m' := match s with Zpos _ => Z.shiftl (Zpos m1) s | Z0 => Zpos m1 | Zneg _ => 0%Z end).
  assert (Hm : (0 <= m')%Z).
  { subst m'. destruct s; try lia. apply Z.shiftl_nonneg. lia. }
  pose proof (Z.div_pos m' (Zpos m2) Hm eq_refl) as Hq.
  unfold Z.div in Hq.
  destruct (Z.div_eucl m' (Zpos m2)) as [q r]. exact Hq.
Qed.

Lemma SF64div_sign (sx sy : bool) (x y : spec_float) :
  (x = S754_infinity sx \/ exists m e, x = S754_finite sx m e) ->
  (exists m e, y = S754_finite sy m e) ->
  Double.has_sign (xorb sx sy) (SF64div x y).
Proof.
  intros [->|(mx & ex & ->)] (my & ey & ->); unfold SF64div; simpl.
  - reflexivity.
  - pose proof (SFdiv_core_nonneg mx ex my ey) as H.
    destruct (SFdiv_core_binary prec emax (Zpos mx) ex (Zpos my) ey) as [[q e'] l].
    now apply binary_round_aux_sign.
Qed.

Lemma SF64mul_sign (s sy : bool) (x : spec_float) (my : positive) (ey : Z) :
  Double.has_sign s x -> Double.has_sign (xorb s sy) (SF64mul x (S754_finite sy my ey)).
Proof.
  unfold SF64mul. destruct x as [sx|sx| |sx mx ex]; simpl; intro H; subst; try reflexivity.
  - contradiction.
  - now apply binary_round_aux_sign.
Qed.

Lemma SFcompare_refl (s : bool) (x : spec_float) :
  Double.has_sign s x -> SFcompare x x = Some Eq.
Proof.
  destruct x as [sx|sx| |sx m e]; simpl; intro H; try reflexivity.
  - now destruct sx.
  - contradiction.
  - rewrite Z.compare_refl, Pos.compare_cont_refl. now destruct sx.
Qed.

Lemma SFltb_asym (x y : spec_float) : SFltb x y = true -> SFltb y x = false.
Proof.
  unfold SFltb.
  destruct x as [sx|sx| |sx mx ex], y as [sy|sy| |sy my ey]; simpl;
    try discriminate; try reflexivity;
    try (destruct sx; try discriminate; try reflexivity; fail);
    try (destruct sy; try discriminate; try reflexivity; fail);
    try (destruct sx, sy; try discriminate; try reflexivity; fail).
  destruct sx, sy; try discriminate; try reflexivity.
  - rewrite (Z.compare_antisym ex ey).
    destruct (ex ?= ey)%Z eqn:E; simpl; try discriminate; try reflexivity.
    pose proof (Pos.compare_cont_antisym mx my Eq) as HA. simpl in HA. rewrite <- HA.
    destruct (Pos.compare_cont Eq mx my); simpl; try discriminate; reflexivity.
  - rewrite (Z.compare_antisym ex ey).
    destruct (ex ?= ey)%Z eqn:E; simpl; try discriminate; try reflexivity.
    pose proof (Pos.compare_cont_antisym mx my Eq) as HA. simpl in HA. rewrite <- HA.
    destruct (Pos.compare_cont Eq mx my); simpl; try discriminate; reflexivity.
Qed.

Lemma negative_below_positive (x : spec_float) (m : positive) (e : Z) :
  Double.has_sign true x -> SFltb x (S754_finite false m e) = true.
Proof.
  unfold SFltb. destruct x as [sx|sx| |sx mx ex]; simpl; intro H; subst;
    try reflexivity. contradiction.
Qed.

Lemma SFltb_zero_inv (x : spec_float) :
  SFltb x (S754_zero false) = true ->
  x = S754_infinity true \/ exists m e, x = S754_finite true m e.
Proof.
  unfold SFltb. destruct x as [sx|sx| |sx m e]; simpl; try discriminate.
  - destruct sx; [now left|discriminate].
  - destruct sx; [right; now exists m, e|discriminate].
Qed.

Lemma SF_positive_finite_inv (y : spec_float) :
  SFltb (S754_zero false) y = true -> SFltb y (S754_infinity false) = true ->
  exists m e, y = S754_finite false m e.
Proof.
  unfold SFltb. destruct y as [sy|sy| |sy m e]; simpl; try discriminate.
  - destruct sy; discriminate.
  - destruct sy; [discriminate|]. intros _ _. now exists m, e.
Qed.

Lemma negative_cases (x : spec_float) :
  Double.has_sign true x -> SFltb x (S754_zero false) = true \/ x = S754_zero true.
Proof.
  unfold SFltb. destruct x as [sx|sx| |sx m e]; simpl; intro H; subst;
    first [now left|now right|contradiction].
Qed.

Lemma is_nan_spec (x : float) : is_nan x = negb (SFeqb (Prim2SF x) (Prim2SF x)).
Proof. unfold is_nan. now rewrite eqb_spec. Qed.

Lemma Prim2SF_100 : Prim2SF 100%float = S754_finite false 7036874417766400 (-46).
Proof. reflexivity. Qed.

Lemma Prim2SF_0 : Prim2SF 0%float = S754_zero false.
Proof. reflexivity. Qed.

Lemma Math_min_at_most (x : float) : (100 <? Double.Math_min x 100)%float = false.
Proof.
  unfold Double.Math_min.
  destruct (is_nan x || is_nan 100%float) eqn:En; [reflexivity|].
  destruct (x <? 100)%float eqn:E1.
  - rewrite ltb_spec in *. now apply SFltb_asym.
  - destruct (100 <? x)%float eqn:E2; [reflexivity|].
    destruct (get_sign x); [exact E2|reflexivity].
Qed.

Lemma ltb_not_nan (x y : float) : (x <? y)%float = true -> is_nan x = false.
Proof.
  rewrite ltb_spec, is_nan_spec. unfold SFltb, SFeqb.
  destruct (Prim2SF x) as [sx|sx| |sx m e]; simpl; try discriminate; intros _.
  - reflexivity.
  - now destruct sx.
  - rewrite Z.compare_refl, Pos.compare_cont_refl. now destruct sx.
Qed.

Lemma Math_min_below (x : float) :
  (x <? 100)%float = true -> Double.Math_min x 100 = x.
Proof.
  intro Hlt. unfold Double.Math_min.
  rewrite (ltb_not_nan x 100 Hlt), Hlt. reflexivity.
Qed.

Lemma SFleb_not_ltb (x y : spec_float) : SFleb x y = true -> SFltb y x = false.
Proof.
  unfold SFleb, SFltb.
  destruct x as [sx|sx| |sx mx ex], y as [sy|sy| |sy my ey]; simpl;
    try discriminate; try reflexivity;
    try (destruct sx; try discriminate; try reflexivity; fail);
    try (destruct sy; try discriminate; try reflexivity; fail);
    try (destruct sx, sy; try discriminate; try reflexivity; fail).
  destruct sx, sy; try discriminate; try reflexivity.
  - rewrite (Z.compare_antisym ex ey).
    destruct (ex ?= ey)%Z eqn:E; simpl; try discriminate; try reflexivity.
    pose proof (Pos.compare_cont_antisym mx my Eq) as HA. simpl in HA. rewrite <- HA.
    destruct (Pos.compare_cont Eq mx my); simpl; try discriminate; reflexivity.
  - rewrite (Z.compare_antisym ex ey).
    destruct (ex ?= ey)%Z eqn:E; simpl; try discriminate; try reflexivity.
    pose proof (Pos.compare_cont_antisym mx my Eq) as HA. simpl in HA. rewrite <- HA.
    destruct (Pos.compare_cont Eq mx my); simpl; try discriminate; reflexivity.
Qed.

(** A number that is at least 100 is not [NaN], not a zero and not
    below 0. *)
Lemma at_least_100_inv (x : spec_float) :
  SFleb (S754_finite false 7036874417766400 (-46)) x = true ->
  SFeqb x x = true
  /\ SFeqb x (S754_zero false) = false
  /\ SFltb x (S754_zero false) = false.
Proof.
  unfold SFleb, SFeqb, SFltb.
  destruct x as [sx|sx| |sx m e]; simpl; try discriminate.
  - destruct sx; [discriminate|]. intros _. repeat split.
  - destruct sx; [discriminate|]. intros _.
    rewrite Z.compare_refl, Pos.compare_cont_refl. repeat split.
Qed.

Lemma Math_min_clamps (x : float) :
  (100 <=? x)%float = true -> Double.Math_min x 100 = 100%float.
Proof.
  intro Hle. rewrite leb_spec, Prim2SF_100 in Hle.
  destruct (at_least_100_inv _ Hle) as (Hnan & Hz & Hneg).
  assert (Hlt : (x <? 100)%float = false).
  { rewrite ltb_spec, Prim2SF_100. now apply SFleb_not_ltb. }
  unfold Double.Math_min.
  rewrite is_nan_spec, Hnan, Hlt. cbn [negb orb].
  change (is_nan 100) with false. cbv iota.
  destruct (100 <? x)%float; [reflexivity|].
  assert (Hs : get_sign x = false).
  { unfold get_sign, is_zero. rewrite eqb_spec.
    change (Prim2SF zero) with (S754_zero false). rewrite Hz.
    rewrite ltb_spec. exact Hneg. }
  now rewrite Hs.
Qed.

Lemma negative_product (pl ta : float) :
  (pl <? 0)%float = true -> (0 <? ta)%float = true -> (ta <? infinity)%float = true ->
  Double.has_sign true (Prim2SF (pl / ta * 100)%float).
Proof.
  rewrite !ltb_spec, Prim2SF_0. intros Hpl Hta Hfin.
  change (Prim2SF infinity) with (S754_infinity false) in Hfin.
  rewrite mul_spec, div_spec, Prim2SF_100.
  apply (SF64mul_sign true false).
  apply (SF64div_sign true false).
  - now apply SFltb_zero_inv.
  - now apply SF_positive_finite_inv.
Qed.

(** C5.  Progress is [Math.min(total_profit_loss / target_amount * 100,
    100)] computed on binary64 numbers.  It never exceeds 100: it is the
    computed product when that is below 100, and 100 when that is 100 or
    more.
    There is no lower clamp: for a negative [total_profit_loss] and a
    positive finite [target_amount] progress is the computed product
    itself, which is never positive: it is negative ([-Infinity] when
    the product overflows) or, when the quotient underflows, [-0]. *)
Theorem progress_at_most_100_no_lower_clamp :
  forall (stats : option Double.Stats) (goal : Double.Goal),
    (100 <? Double.calculateProgress stats goal)%float = false
    /\ forall s : Double.Stats,
         stats = Some s ->
         let raw :=
           (Double.total_profit_loss s / Double.target_amount goal * 100)%float in
         ((raw <? 100)%float = true -> Double.calculateProgress stats goal = raw)
         /\ ((100 <=? raw)%float = true ->
             Double.calculateProgress stats goal = 100%float)
         /\ ((Double.total_profit_loss s <? 0)%float = true ->
             (0 <? Double.target_amount goal)%float = true ->
             (Double.target_amount goal <? infinity)%float = true ->
             Double.calculateProgress stats goal = raw
             /\ ((raw <? 0)%float = true \/ raw = neg_zero)).
Proof.
  intros stats goal. split.
  - destruct stats as [s|]; simpl; [apply Math_min_at_most|reflexivity].
  - intros s -> raw. simpl. fold raw. split; [|split].
    + apply Math_min_below.
    + apply Math_min_clamps.
    + intros Hpl Hta Hfin.
      pose proof (negative_product _ _ Hpl Hta Hfin) as Hs. fold raw in Hs.
      split.
      * apply Math_min_below. rewrite ltb_spec, Prim2SF_100.
        now apply negative_below_positive.
      * destruct (negative_cases _ Hs) as [H|H].
        -- left. now rewrite ltb_spec, Prim2SF_0.
        -- right. apply Prim2SF_inj. exact H.
Qed.

(** C5 at a goal of 1000 and a loss of 200 so far: progress is the
    computed product, -20. *)
Lemma progress_at_most_100_no_lower_clamp_witness :
  let s := {| Double.total_profit_loss := (-200)%float |} in
  let g := {| Double.target_amount := 1000%float |} in
  (Double.total_profit_loss s <? 0)%float = true
  /\ (0 <? Double.target_amount g)%float = true
  /\ (Double.target_amount g <? infinity)%float = true
  /\ Double.calculateProgress (Some s) g = (-20)%float
  /\ (100 <? Double.calculateProgress (Some s) g)%float = false.
Proof.
  cbv zeta.
  split; [reflexivity|]. split; [reflexivity|]. split; [reflexivity|].
  destruct (progress_at_most_100_no_lower_clamp
              (Some {| Double.total_profit_loss := (-200)%float |})
              {| Double.target_amount := 1000%float |}) as [Hmax Hraw].
  destruct (Hraw _ eq_refl) as (_ & _ & Hneg).
  destruct (Hneg eq_refl eq_refl eq_refl) as [E _].
  split; [exact E|exact Hmax].
Defined.

(** C5 as stated fails at the smallest negative [total_profit_loss] and
    a target of 2: the quotient underflows and progress is [-0], which is
    not below 0. *)
Lemma progress_underflow_not_negative :
  let s := {| Double.total_profit_loss := (-0x1p-1074)%float |} in
  let g := {| Double.target_amount := 2%float |} in
  (Double.total_profit_loss s <? 0)%float = true
  /\ (0 <? Double.target_amount g)%float = true
  /\ Double.calculateProgress (Some s) g = neg_zero
  /\ (Double.calculateProgress (Some s) g <? 0)%float = false.
Proof. vm_compute. repeat split. Qed.

End DoubleFacts.

(** C10.  Without statistics ([stats] is [null]) the progress of every
    goal is 0, and so is the progress of a goal whose statistics show a
    zero [total_profit_loss] (for a target amount other than 0): the value
    does not tell the two apart. *)
Theorem progress_without_stats_is_zero :
  forall goal : Goal,
    calculateProgress None goal = JS.Fin 0%Q
    /\ (forall s : Stats,
           (total_profit_loss s == 0)%Q ->
           ~ (target_amount goal == 0)%Q ->
           exists q : Q,
             calculateProgress (Some s) goal = JS.Fin q /\ (q == 0)%Q).
Proof.
  intro goal. split; [reflexivity|].
  intros s Hzero Hnz.
  rewrite (progress_with_stats s goal Hnz).
  assert (Hraw : (total_profit_loss s / target_amount goal * 100 == 0)%Q).
  { rewrite Hzero. unfold Qdiv. now rewrite !Qmult_0_l. }
  eexists. split; [reflexivity|].
  destruct (Qle_bool _ 100) eqn:E.
  - exact Hraw.
  - exfalso. rewrite Hraw in E. discriminate E.
Qed.

(** ** Goal status *)

(** C4.  The status is decided in priority order, the first test that
    holds winning: the [completed] flag, then progress of at least 100,
    then a negative number of days left, then at most 7 days left, and
    [active] otherwise.  A goal of 1000 that is not completed, with a
    [total_profit_loss] of 1200, has progress 100 and status
    [achieved]. *)
Theorem goal_status_priority :
  forall (stats : option Stats) (now : Z) (goal : Goal),
    let status := getGoalStatus stats now goal in
    let progress := calculateProgress stats goal in
    let days := daysLeft now goal in
    (status = "completed"%string <-> completed goal = true)
    /\ (status = "achieved"%string <->
        completed goal = false /\ JS.geb progress 100 = true)
    /\ (status = "expired"%string <->
        completed goal = false /\ JS.geb progress 100 = false /\ (days < 0)%Z)
    /\ (status = "urgent"%string <->
        completed goal = false /\ JS.geb progress 100 = false
        /\ (0 <= days <= 7)%Z)
    /\ (status = "active"%string <->
        completed goal = false /\ JS.geb progress 100 = false /\ (7 < days)%Z)
    /\ (forall s : Stats,
           stats = Some s ->
           (target_amount goal == 1000)%Q ->
           (total_profit_loss s == 1200)%Q ->
           completed goal = false ->
           progress = JS.Fin 100 /\ status = "achieved"%string).
Proof.
  intros stats now goal status progress days.
  assert (Hcases :
    (completed goal = true /\ status = "completed"%string)
    \/ (completed goal = false /\ JS.geb progress 100 = true
        /\ status = "achieved"%string)
    \/ (completed goal = false /\ JS.geb progress 100 = false
        /\ (days < 0)%Z /\ status = "expired"%string)
    \/ (completed goal = false /\ JS.geb progress 100 = false
        /\ (0 <= days <= 7)%Z /\ status = "urgent"%string)
    \/ (completed goal = false /\ JS.geb progress 100 = false
        /\ (7 < days)%Z /\ status = "active"%string)).
  { subst status. unfold getGoalStatus. fold progress. fold days.
    destruct (completed goal); [now left|right].
    destruct (JS.geb progress 100); [now left|right].
    destruct (Z.ltb_spec days 0); [now left|right].
    destruct (Z.leb_spec days 7); [left|right]; repeat split; trivial; lia. }
  split; [|split; [|split; [|split; [|split]]]].
  - destruct Hcases as [(Hc & ->)|[(Hc & Hp & ->)|[(Hc & Hp & Hd & ->)
      |[(Hc & Hp & Hd & ->)|(Hc & Hp & Hd & ->)]]]];
      split; intro H; trivial; try discriminate H; congruence.
  - destruct Hcases as [(Hc & ->)|[(Hc & Hp & ->)|[(Hc & Hp & Hd & ->)
      |[(Hc & Hp & Hd & ->)|(Hc & Hp & Hd & ->)]]]];
      split; intro H; try discriminate H; try (now split);
      destruct H; congruence.
  - destruct Hcases as [(Hc & ->)|[(Hc & Hp & ->)|[(Hc & Hp & Hd & ->)
      |[(Hc & Hp & Hd & ->)|(Hc & Hp & Hd & ->)]]]];
      split; intro H; try discriminate H; try (now repeat split);
      destruct H as (? & ? & ?); try congruence; exfalso; lia.
  - destruct Hcases as [(Hc & ->)|[(Hc & Hp & ->)|[(Hc & Hp & Hd & ->)
      |[(Hc & Hp & Hd & ->)|(Hc & Hp & Hd & ->)]]]];
      split; intro H; try discriminate H; try (now repeat split);
      destruct H as (? & ? & ?); try congruence; exfalso; lia.
  - destruct Hcases as [(Hc & ->)|[(Hc & Hp & ->)|[(Hc & Hp & Hd & ->)
      |[(Hc & Hp & Hd & ->)|(Hc & Hp & Hd & ->)]]]];
      split; intro H; try discriminate H; try (now repeat split);
      destruct H as (? & ? & ?); try congruence; exfalso; lia.
  - intros s -> Hta Hpl Hc.
    assert (Hnz : ~ (target_amount goal == 0)%Q) by (rewrite Hta; lra).
    assert (Hp : progress = JS.Fin 100).
    { subst progress. rewrite (progress_with_stats s goal Hnz).
      destruct (Qle_bool _ 100) eqn:E; [|reflexivity].
      exfalso. apply Qle_bool_iff in E. rewrite Hta, Hpl in E.
      revert E. unfold Qle. simpl. lia. }
    split; [exact Hp|].
    subst status. unfold getGoalStatus. fold progress.
    now rewrite Hc, Hp.
Qed.

(** The scenario on a concrete goal, whatever the current instant. *)
Example scenario_goal_achieved (now : Z) :
  calculateProgress (Some (stats_with 1200)) sample_goal = JS.Fin 100
  /\ getGoalStatus (Some (stats_with 1200)) now sample_goal = "achieved"%string.
Proof. split; reflexivity. Qed.

(** ** The "Losses Analysis" tab *)

Lemma buildInsights_guard (stats : Stats) (lm : LossMetrics) :
  buildInsights stats lm =
  if 0 <? totalLosses lm then lossInsights stats lm else [].
Proof.
  unfold buildInsights, lossesTab. now destruct (0 <? totalLosses lm).
Qed.

Lemma percentOfTrades_guard (stats : Stats) (lm : LossMetrics) :
  percentOfTrades stats lm =
  if 0 <? totalLosses lm then Some (lossPercentage stats lm) else None.
Proof.
  unfold percentOfTrades, lossesTab. now destruct (0 <? totalLosses lm).
Qed.

(** C3, as the page has it.  The insights are part of the loss cards,
    which the tab shows only for [totalLosses > 0]; with no loss nothing
    is emitted.  When they are shown: exactly one line cites
    [worst_trade]; there is a streak warning iff [longestStreak > 2]; a
    risk-sizing suggestion iff [average_loss < -50]; and a line naming a
    pair iff [lossByPair] is not empty, the pair being that of its first
    element. *)
Theorem buildInsights_when_losses :
  forall (stats : Stats) (lm : LossMetrics),
    let lines := buildInsights stats lm in
    (totalLosses lm = 0 -> lines = [])
    /\ (0 < totalLosses lm ->
        filter cites_worst_trade lines
        = [WorstTradeLine (Qabs (worst_trade stats))]
        /\ (existsb is_streak_warning lines = true <-> 2 < longestStreak lm)
        /\ (forall n, In (StreakWarning n) lines -> n = longestStreak lm)
        /\ (existsb is_risk_sizing lines = true <-> (average_loss stats < -50)%Q)
        /\ (existsb names_a_pair lines = true <-> lossByPair lm <> [])
        /\ (forall p, In (WorstPairLine p) lines ->
                      exists worst rest,
                        lossByPair lm = worst :: rest /\ p = pair worst)).
Proof.
  intros stats lm lines. subst lines. rewrite buildInsights_guard.
  split.
  - intros ->. reflexivity.
  - intro Hpos. apply Nat.ltb_lt in Hpos. rewrite Hpos.
    unfold lossInsights, when.
    destruct (Nat.ltb_spec 2 (longestStreak lm)) as [Hs|Hs];
      destruct (JS.Qltb (average_loss stats) (-50)%Q) eqn:Ha;
      [apply Qltb_lt in Ha|apply Qltb_ge in Ha
      |apply Qltb_lt in Ha|apply Qltb_ge in Ha];
      destruct (lossByPair lm) as [|worst rest]; simpl;
      (split; [reflexivity|]);
      (split; [split; intro H; (lia || discriminate H || reflexivity)|]);
      (split; [intros n H; repeat (destruct H as [H|H]; try discriminate H);
               solve [now inversion H | contradiction]|]);
      (split; [split; intro H; (lra || discriminate H || reflexivity)|]);
      (split; [split; intro H; (congruence || discriminate H || reflexivity)|]);
      intros p H; repeat (destruct H as [H|H]; try discriminate H);
      solve [inversion H; subst; now exists worst, rest | contradiction].
Qed.

(** C3 as stated fails where the page shows no loss card: with no losing
    trade there is no insight at all, so no line cites [worst_trade]. *)
Lemma buildInsights_nothing_without_losses :
  buildInsights (stats_with 325) (calculateLossMetrics [winning_trade; open_trade]) = []
  /\ ~ (forall (stats : Stats) (lm : LossMetrics),
          exists lost, In (WorstTradeLine lost) (buildInsights stats lm)).
Proof.
  split; [reflexivity|].
  intro H.
  destruct (H (stats_with 325) (calculateLossMetrics [winning_trade; open_trade]))
    as [lost []].
Qed.

(** ** The percentage of losses *)

Lemma inject_nat_pos (n : nat) : 0 < n -> (0 < inject_Z (Z.of_nat n))%Q.
Proof.
  intro H. change 0%Q with (inject_Z 0). rewrite <- Zlt_Qlt. lia.
Qed.

Lemma inject_nat_le (n m : nat) :
  n <= m -> (inject_Z (Z.of_nat n) <= inject_Z (Z.of_nat m))%Q.
Proof.
  intro H. rewrite <- Zle_Qle. lia.
Qed.

(** C2, as the page has it.  The percentage of losses is computed exactly
    when [totalLosses > 0]; otherwise the tab shows the "Perfect Record!"
    card and computes no ratio.  The divisor [total_trades] itself is not
    tested.  When the statistics count at least as many trades as there
    are losses, the divisor is not zero and the percentage is the finite
    number [totalLosses / total_trades * 100], in (0, 100]. *)
Theorem percentOfTrades_guarded_by_totalLosses :
  forall (stats : Stats) (lm : LossMetrics),
    (percentOfTrades stats lm = None <-> totalLosses lm = 0)
    /\ (0 < totalLosses lm ->
        totalLosses lm <= total_trades stats ->
        exists q : Q,
          percentOfTrades stats lm = Some (JS.Fin q)
          /\ q = (inject_Z (Z.of_nat (totalLosses lm))
                  / inject_Z (Z.of_nat (total_trades stats)) * 100)%Q
          /\ (0 < q <= 100)%Q).
Proof.
  intros stats lm. rewrite percentOfTrades_guard.
  split.
  - destruct (Nat.ltb_spec 0 (totalLosses lm)) as [H|H].
    + split; [discriminate|lia].
    + split; [lia|reflexivity].
  - intros Hpos Hle.
    rewrite (proj2 (Nat.ltb_lt _ _) Hpos).
    assert (Hl : (0 < inject_Z (Z.of_nat (totalLosses lm)))%Q)
      by now apply inject_nat_pos.
    assert (Hlt : (inject_Z (Z.of_nat (totalLosses lm))
                   <= inject_Z (Z.of_nat (total_trades stats)))%Q)
      by now apply inject_nat_le.
    assert (Ht : (0 < inject_Z (Z.of_nat (total_trades stats)))%Q) by lra.
    unfold lossPercentage.
    rewrite div_finite by lra.
    eexists. split; [reflexivity|]. split; [reflexivity|].
    set (l := inject_Z (Z.of_nat (totalLosses lm))) in *.
    set (t := inject_Z (Z.of_nat (total_trades stats))) in *.
    assert (H0 : (0 < l / t)%Q) by (apply Qlt_shift_div_l; [exact Ht|lra]).
    assert (H1 : (l / t <= 1)%Q) by (apply Qle_shift_div_r; [exact Ht|lra]).
    set (x := (l / t)%Q) in *. lra.
Qed.

(** C2 as stated fails at statistics that count no trade while the trade
    list holds a loss: the page divides by zero and the percentage is
    [Infinity], not 0. *)
Lemma percentOfTrades_division_by_zero :
  total_trades stats_without_trades = 0
  /\ percentOfTrades stats_without_trades
       (calculateLossMetrics [winning_trade; losing_trade]) = Some JS.PosInf
  /\ ~ (forall (stats : Stats) (lm : LossMetrics),
          total_trades stats = 0 ->
          forall p, percentOfTrades stats lm = Some p ->
                    exists q, p = JS.Fin q /\ (q == 0)%Q).
Proof.
  split; [reflexivity|]. split; [reflexivity|].
  intro H.
  destruct (H stats_without_trades
              (calculateLossMetrics [winning_trade; losing_trade])
              eq_refl JS.PosInf eq_refl) as (q & Hq & _).
  discriminate Hq.
Qed.

(* ================================================================= *)
(** * Part III: further properties of the pages *)
(* ================================================================= *)

Unset Implicit Arguments.

(** ** Sorted arrays *)

Lemma StronglySorted_impl {A : Type} (R R' : A -> A -> Prop) (l : list A) :
  (forall a b, R a b -> R' a b) -> StronglySorted R l -> StronglySorted R' l.
Proof.
  intros HR H. induction H as [|x l Hs IH Hx]; constructor.
  - exact IH.
  - eapply Forall_impl; [|exact Hx]. intros y Hy. now apply HR.
Qed.

Lemma StronglySorted_app_inv {A : Type} (R : A -> A -> Prop) (l1 l2 : list A) :
  StronglySorted R (l1 ++ l2) -> Forall (fun x => Forall (R x) l2) l1.
Proof.
  induction l1 as [|x l1 IH]; simpl; intro H.
  - constructor.
  - inversion H as [|? ? Hs Hx]; subst. constructor.
    + apply Forall_app in Hx. tauto.
    + now apply IH.
Qed.

Lemma by_exit_time_desc_key (a b : Trade) :
  (by_exit_time_desc a b == inject_Z (- exit_ms a) - inject_Z (- exit_ms b))%Q.
Proof.
  unfold by_exit_time_desc, exit_ms, Z.sub.
  rewrite !inject_Z_plus, !inject_Z_opp. ring.
Qed.

Lemma sort_most_recent_first (l : list Trade) :
  MostRecentFirst (JS.Array_sort by_exit_time_desc l).
Proof.
  unfold MostRecentFirst.
  eapply (StronglySorted_impl _ _ _);
    [|apply (Array_sort_sorted by_exit_time_desc
               (fun t => inject_Z (- exit_ms t)) by_exit_time_desc_key)].
  intros a b H. simpl in H. rewrite <- Zle_Qle in H. lia.
Qed.

Lemma losing_trades_In (trades : list Trade) (t : Trade) :
  In t (losing_trades trades) <->
  In t trades /\ is_closed t = true /\ is_loss t = true.
Proof.
  unfold losing_trades, closed_trades. rewrite !filter_In. tauto.
Qed.

(** ** The recent losses *)

(** X1.  [recentLosses] holds closed losing trades of the input, most
    recent first, and as many of them as there are, up to five. *)
Theorem recentLosses_recent_first_at_most_five :
  forall trades : list Trade,
    let recent := recentLosses (calculateLossMetrics trades) in
    MostRecentFirst recent
    /\ length recent = Nat.min 5 (totalLosses (calculateLossMetrics trades))
    /\ Forall (fun t => In t trades /\ is_closed t = true /\ is_loss t = true)
         recent.
Proof.
  intros trades recent. subst recent.
  rewrite recentLosses_eq, totalLosses_eq.
  split; [|split].
  - apply slice_sorted, sort_most_recent_first.
  - unfold JS.Array_slice0. rewrite length_firstn.
    now rewrite (Permutation_length (Array_sort_perm by_exit_time_desc _)).
  - apply slice_Forall, Array_sort_Forall.
    apply Forall_forall. intros t Ht. now apply losing_trades_In.
Qed.

(** X2.  The losing trades that [recentLosses] leaves out are none of
    them more recent than any it keeps: together with the kept ones they
    make up the losing trades. *)
Theorem recentLosses_leaves_out_older :
  forall trades : list Trade,
  exists older : list Trade,
    Permutation (recentLosses (calculateLossMetrics trades) ++ older)
      (losing_trades trades)
    /\ Forall (fun kept =>
                 Forall (fun left_out => (exit_ms left_out <= exit_ms kept)%Z) older)
         (recentLosses (calculateLossMetrics trades)).
Proof.
  intro trades. rewrite recentLosses_eq. unfold JS.Array_slice0.
  set (sorted := JS.Array_sort by_exit_time_desc (losing_trades trades)).
  exists (skipn 5 sorted). split.
  - rewrite firstn_skipn. apply Array_sort_perm.
  - apply (StronglySorted_app_inv (fun a b => (exit_ms b <= exit_ms a)%Z)).
    rewrite firstn_skipn. apply sort_most_recent_first.
Qed.

(** ** Counting losses *)

Lemma filter_length_perm {A : Type} (f : A -> bool) (l l' : list A) :
  Permutation l l' -> length (filter f l) = length (filter f l').
Proof.
  induction 1 as [|x l l' _ IH|x y l|l l' l'' _ IH1 _ IH2]; simpl.
  - reflexivity.
  - destruct (f x); simpl; congruence.
  - destruct (f x), (f y); reflexivity.
  - congruence.
Qed.

Lemma filter_all {A : Type} (f : A -> bool) (l : list A) :
  Forall (fun x => f x = true) l -> filter f l = l.
Proof.
  induction 1 as [|x l Hx _ IH]; simpl; [reflexivity|].
  now rewrite Hx, IH.
Qed.

Lemma filter_length_bound {A : Type} (f : A -> bool) (l : list A) :
  length (filter f l) <= length l.
Proof.
  induction l as [|x l IH]; simpl; [lia|].
  destruct (f x); simpl; lia.
Qed.

Lemma LossRun_le_losses (l : list Trade) (n : nat) :
  LossRun l n -> n <= length (filter is_loss l).
Proof.
  intros (before & run & rest & -> & <- & Hall).
  rewrite !filter_app, !length_app, (filter_all is_loss run Hall). lia.
Qed.

Lemma losses_of_chronological (trades : list Trade) :
  length (filter is_loss (JS.Array_sort by_exit_time_asc (closed_trades trades)))
  = length (losing_trades trades).
Proof.
  unfold losing_trades. apply filter_length_perm, Array_sort_perm.
Qed.

(** X3.  The longest streak is at most the number of losses, which is at
    most the number of trades; and the streak is 0 only when there is no
    loss at all. *)
Theorem longestStreak_totalLosses_bounds :
  forall trades : list Trade,
    let m := calculateLossMetrics trades in
    longestStreak m <= totalLosses m
    /\ totalLosses m <= length trades
    /\ (longestStreak m = 0 <-> totalLosses m = 0).
Proof.
  intros trades m. subst m.
  rewrite totalLosses_eq, longestStreak_eq.
  set (chron := JS.Array_sort by_exit_time_asc (closed_trades trades)).
  destruct (streak_loop_longest chron) as [Hrun Hmax].
  assert (Hle : fst (fold_left streak_step chron (0, 0))
                <= length (losing_trades trades)).
  { rewrite <- losses_of_chronological. now apply LossRun_le_losses. }
  split; [exact Hle|]. split.
  - unfold losing_trades, closed_trades.
    etransitivity; [apply filter_length_bound|apply filter_length_bound].
  - split; [|lia].
    intro H0. destruct (losing_trades trades) as [|t l] eqn:E; [reflexivity|].
    exfalso.
    assert (Hin : In t (losing_trades trades)) by (rewrite E; now left).
    unfold losing_trades in Hin. apply filter_In in Hin.
    destruct Hin as [Hin Hloss].
    assert (Hc : In t chron).
    { eapply Permutation_in; [symmetry; apply Array_sort_perm|exact Hin]. }
    apply in_split in Hc. destruct Hc as (before & rest & Hc).
    assert (H1 : LossRun chron 1).
    { exists before, [t], rest. repeat split; [exact Hc|].
      constructor; [exact Hloss|constructor]. }
    apply Hmax in H1. lia.
Qed.

(** ** Open positions *)

Lemma closed_trades_without_open (l1 l2 : list Trade) (t : Trade) :
  is_closed t = false -> closed_trades (l1 ++ t :: l2) = closed_trades (l1 ++ l2).
Proof.
  intro H. unfold closed_trades. rewrite !filter_app. simpl. now rewrite H.
Qed.

Lemma metrics_of_closed_trades (l l' : list Trade) :
  closed_trades l = closed_trades l' ->
  calculateLossMetrics l = calculateLossMetrics l'.
Proof.
  intro H.
  rewrite (LossMetrics_eta (calculateLossMetrics l)),
    (LossMetrics_eta (calculateLossMetrics l')).
  rewrite !totalLosses_eq, !longestStreak_eq, !lossByPair_eq, !recentLosses_eq.
  unfold loss_groups, losing_trades. now rewrite H.
Qed.

(** X4.  An open position (a trade whose [exit_price] is [null]) has no
    influence on the loss metrics, wherever it stands in the list and
    whatever its other fields hold. *)
Theorem open_position_ignored :
  forall (before rest : list Trade) (t : Trade),
    is_closed t = false ->
    calculateLossMetrics (before ++ t :: rest)
    = calculateLossMetrics (before ++ rest).
Proof.
  intros before rest t H.
  apply metrics_of_closed_trades. now apply closed_trades_without_open.
Qed.

(** X4 at an open position between a loss and a win. *)
Lemma open_position_ignored_witness :
  is_closed open_trade = false
  /\ calculateLossMetrics ([losing_trade] ++ open_trade :: [winning_trade])
     = calculateLossMetrics ([losing_trade] ++ [winning_trade]).
Proof.
  split; [reflexivity|].
  apply (open_position_ignored [losing_trade] [winning_trade] open_trade).
  reflexivity.
Defined.

(** ** The counts of the loss groups *)

Lemma on_pair_cons (k : string) (t : Trade) (l : list Trade) :
  length (on_pair k (t :: l))
  = length (on_pair k l) + (if string_dec (currency_pair t) k then 1 else 0).
Proof.
  unfold on_pair. simpl.
  destruct (String.eqb_spec (currency_pair t) k) as [E|E];
    destruct (string_dec (currency_pair t) k); try contradiction; simpl; lia.
Qed.

Lemma on_pair_counts_cons (ks : list string) (t : Trade) (l : list Trade) :
  list_sum (map (fun k => length (on_pair k (t :: l))) ks)
  = list_sum (map (fun k => length (on_pair k l)) ks)
    + count_occ string_dec ks (currency_pair t).
Proof.
  induction ks as [|k ks IH]; [reflexivity|].
  cbn [map count_occ]. unfold list_sum in *. cbn [fold_right].
  rewrite IH, on_pair_cons.
  destruct (string_dec k (currency_pair t)) as [->|Hne].
  - destruct (string_dec (currency_pair t) (currency_pair t)); [lia|contradiction].
  - destruct (string_dec (currency_pair t) k); [congruence|lia].
Qed.

Lemma on_pair_counts_le (ks : list string) (l : list Trade) :
  NoDup ks ->
  list_sum (map (fun k => length (on_pair k l)) ks) <= length l.
Proof.
  intro Hnd. induction l as [|t l IH].
  - induction ks as [|k ks IHk]; simpl; [lia|].
    inversion Hnd; subst. now apply IHk.
  - rewrite on_pair_counts_cons. simpl.
    pose proof (proj1 (NoDup_count_occ string_dec ks) Hnd (currency_pair t)).
    lia.
Qed.

Lemma on_pair_counts_eq (ks : list string) (l : list Trade) :
  NoDup ks ->
  Forall (fun t => In (currency_pair t) ks) l ->
  list_sum (map (fun k => length (on_pair k l)) ks) = length l.
Proof.
  intros Hnd Hall. induction Hall as [|t l Ht _ IH].
  - clear Hnd. induction ks as [|k ks IHk]; simpl; [reflexivity|exact IHk].
  - rewrite on_pair_counts_cons, IH. simpl.
    pose proof (proj1 (NoDup_count_occ string_dec ks) Hnd (currency_pair t)).
    pose proof (proj1 (count_occ_In string_dec ks (currency_pair t)) Ht).
    lia.
Qed.

Lemma slice_NoDup {A : Type} (n : nat) (l : list A) :
  NoDup l -> NoDup (JS.Array_slice0 n l).
Proof.
  unfold JS.Array_slice0. intro H.
  rewrite <- (firstn_skipn n l) in H. now apply NoDup_app_remove_r in H.
Qed.

Lemma sorted_groups_ok (trades : list Trade) :
  Forall (group_ok trades) (JS.Array_sort by_total_asc (loss_groups trades)).
Proof. apply Array_sort_Forall, loss_groups_ok. Qed.

Lemma sorted_groups_NoDup (trades : list Trade) :
  NoDup (map pair (JS.Array_sort by_total_asc (loss_groups trades))).
Proof.
  eapply Permutation_NoDup; [|apply loss_groups_NoDup].
  apply Permutation_map. symmetry. apply Array_sort_perm.
Qed.

Lemma group_counts (trades : list Trade) (groups : list PairLoss) :
  Forall (group_ok trades) groups ->
  map count groups
  = map (fun k => length (on_pair k (losing_trades trades))) (map pair groups).
Proof.
  induction 1 as [|e l He _ IH]; simpl; [reflexivity|].
  destruct He as (_ & Hc & _). rewrite Hc, IH. reflexivity.
Qed.

(** X5.  The groups of [lossByPair] never count more losses than
    [totalLosses]: no losing trade is counted twice. *)
Theorem lossByPair_counts_at_most_totalLosses :
  forall trades : list Trade,
    list_sum (map count (lossByPair (calculateLossMetrics trades)))
    <= totalLosses (calculateLossMetrics trades).
Proof.
  intro trades. rewrite lossByPair_eq, totalLosses_eq.
  rewrite (group_counts trades).
  - apply on_pair_counts_le.
    unfold JS.Array_slice0. rewrite <- firstn_map.
    apply (slice_NoDup 5), sorted_groups_NoDup.
  - apply slice_Forall, sorted_groups_ok.
Qed.

(** X6.  When fewer than five groups come out and no losing trade is on
    a pair spelled like a member of [Object.prototype], the counts of the
    groups add up to [totalLosses] exactly: every loss is in its pair's
    group. *)
Theorem lossByPair_counts_add_up :
  forall trades : list Trade,
    length (lossByPair (calculateLossMetrics trades)) < 5 ->
    Forall (fun t => JS.inherited (currency_pair t) = false)
      (losing_trades trades) ->
    list_sum (map count (lossByPair (calculateLossMetrics trades)))
    = totalLosses (calculateLossMetrics trades).
Proof.
  intros trades Hlen Hnames.
  rewrite lossByPair_eq in *. rewrite totalLosses_eq.
  set (groups := JS.Array_sort by_total_asc (loss_groups trades)) in *.
  assert (Hall : JS.Array_slice0 5 groups = groups).
  { unfold JS.Array_slice0 in *. rewrite length_firstn in Hlen.
    apply firstn_all2. lia. }
  rewrite Hall.
  rewrite (group_counts trades groups (sorted_groups_ok trades)).
  apply on_pair_counts_eq; [apply sorted_groups_NoDup|].
  apply Forall_forall. intros t Ht.
  eapply Permutation_in;
    [apply Permutation_map; symmetry; apply Array_sort_perm|].
  apply loss_groups_cover; [exact Ht|].
  exact (proj1 (Forall_forall _ _) Hnames t Ht).
Qed.

(** X6 at the four trades of the streak scenario, three of them losses
    on one pair. *)
Lemma lossByPair_counts_add_up_witness :
  length (lossByPair (calculateLossMetrics scenario_trades)) < 5
  /\ Forall (fun t => JS.inherited (currency_pair t) = false)
       (losing_trades scenario_trades)
  /\ list_sum (map count (lossByPair (calculateLossMetrics scenario_trades)))
     = totalLosses (calculateLossMetrics scenario_trades).
Proof.
  assert (H1 : length (lossByPair (calculateLossMetrics scenario_trades)) < 5)
    by (vm_compute; lia).
  assert (H2 : Forall (fun t => JS.inherited (currency_pair t) = false)
                 (losing_trades scenario_trades))
    by (repeat constructor).
  split; [exact H1|]. split; [exact H2|].
  exact (lossByPair_counts_add_up scenario_trades H1 H2).
Defined.

(** ** The order in which the trades arrive *)

Section SortedUnique.
Context {A : Type} (compareFn : A -> A -> Q) (key : A -> Q).
Hypothesis compare_key : forall a b, (compareFn a b == key a - key b)%Q.

Lemma distinct_keys_perm (l l' : list A) :
  Permutation l l' -> distinct_keys key l -> distinct_keys key l'.
Proof.
  intros Hp Hd x y Hx Hy E.
  apply Hd; [| |exact E]; (eapply Permutation_in; [symmetry; exact Hp|assumption]).
Qed.

Lemma distinct_keys_tail (x : A) (l : list A) :
  distinct_keys key (x :: l) -> distinct_keys key l.
Proof.
  intros Hd a b Ha Hb. apply Hd; now right.
Qed.

Lemma sorted_unique (l1 : list A) :
  forall l2,
    StronglySorted (fun a b => (key a <= key b)%Q) l1 ->
    StronglySorted (fun a b => (key a <= key b)%Q) l2 ->
    Permutation l1 l2 ->
    distinct_keys key l1 ->
    l1 = l2.
Proof.
  induction l1 as [|x l1 IH]; intros l2 H1 H2 Hp Hd.
  - now apply Permutation_nil in Hp.
  - destruct l2 as [|y l2].
    { apply Permutation_sym, Permutation_nil in Hp. discriminate. }
    inversion H1 as [|? ? Hs1 Hx]; subst.
    inversion H2 as [|? ? Hs2 Hy]; subst.
    assert (Hxy : x = y).
    { assert (Hin1 : In x (y :: l2))
        by (eapply Permutation_in; [exact Hp|now left]).
      assert (Hin2 : In y (x :: l1))
        by (eapply Permutation_in; [symmetry; exact Hp|now left]).
      destruct Hin1 as [E|Hin1]; [now symmetry|].
      destruct Hin2 as [E|Hin2]; [exact E|].
      pose proof (proj1 (Forall_forall _ _) Hy x Hin1) as Hle1.
      pose proof (proj1 (Forall_forall _ _) Hx y Hin2) as Hle2.
      simpl in Hle1, Hle2.
      apply Hd; [now left|now right|]. lra. }
    subst y. f_equal.
    apply IH; [exact Hs1|exact Hs2| |now apply distinct_keys_tail in Hd].
    now apply Permutation_cons_inv in Hp.
Qed.

(** With pairwise different keys, the sorted array does not depend on
    the order of the array that is sorted. *)
Lemma Array_sort_of_permutation (l l' : list A) :
  Permutation l l' -> distinct_keys key l ->
  JS.Array_sort compareFn l = JS.Array_sort compareFn l'.
Proof.
  intros Hp Hd. apply sorted_unique.
  - now apply (Array_sort_sorted compareFn key).
  - now apply (Array_sort_sorted compareFn key).
  - rewrite !Array_sort_perm. exact Hp.
  - eapply distinct_keys_perm; [|exact Hd].
    symmetry. apply Array_sort_perm.
Qed.

(** The largest element appended: it stays last. *)
Lemma insert_before_last (x t : A) (s : list A) :
  (key x <= key t)%Q ->
  JS.insert compareFn x (s ++ [t]) = JS.insert compareFn x s ++ [t].
Proof.
  intro Hle. induction s as [|y s IH]; simpl.
  - destruct (JS.after compareFn x t) eqn:E; [|reflexivity].
    apply (after_true compareFn key compare_key) in E. lra.
  - destruct (JS.after compareFn x y); [now rewrite IH|reflexivity].
Qed.

End SortedUnique.

Lemma filter_perm {A : Type} (f : A -> bool) (l l' : list A) :
  Permutation l l' -> Permutation (filter f l) (filter f l').
Proof.
  induction 1 as [|x l l' _ IH|x y l|l l' l'' _ IH1 _ IH2]; simpl.
  - constructor.
  - destruct (f x); [now constructor|exact IH].
  - destruct (f x), (f y); try reflexivity. apply perm_swap.
  - now transitivity (filter f l').
Qed.

Lemma NoDup_exit_ms_distinct (key : Trade -> Q) (l : list Trade) :
  (forall a b, (key a == key b)%Q -> exit_ms a = exit_ms b) ->
  NoDup (map exit_ms l) -> distinct_keys key l.
Proof.
  intros Hkey Hnd x y Hx Hy E. apply Hkey in E.
  induction l as [|z l IH]; simpl in *; [contradiction|].
  inversion Hnd as [|? ? Hnotin Hnd']; subst.
  destruct Hx as [->|Hx], Hy as [->|Hy].
  - reflexivity.
  - exfalso. apply Hnotin. rewrite E. now apply in_map.
  - exfalso. apply Hnotin. rewrite <- E. now apply in_map.
  - now apply IH.
Qed.

Lemma distinct_keys_filter (key : Trade -> Q) (f : Trade -> bool) (l : list Trade) :
  distinct_keys key l -> distinct_keys key (filter f l).
Proof.
  intros Hd x y Hx Hy. apply filter_In in Hx, Hy. apply Hd; tauto.
Qed.

(** X7.  When the closed trades have pairwise different [exit_time]s, the
    order in which the trades arrive does not matter to the streak, the
    number of losses and the recent losses. *)
Theorem fetch_order_irrelevant :
  forall trades trades' : list Trade,
    Permutation trades trades' ->
    NoDup (map exit_ms (closed_trades trades)) ->
    longestStreak (calculateLossMetrics trades')
    = longestStreak (calculateLossMetrics trades)
    /\ totalLosses (calculateLossMetrics trades')
       = totalLosses (calculateLossMetrics trades)
    /\ recentLosses (calculateLossMetrics trades')
       = recentLosses (calculateLossMetrics trades).
Proof.
  intros trades trades' Hp Hnd.
  assert (Hc : Permutation (closed_trades trades) (closed_trades trades'))
    by now apply filter_perm.
  assert (Hl : Permutation (losing_trades trades) (losing_trades trades'))
    by now apply filter_perm.
  rewrite !longestStreak_eq, !totalLosses_eq, !recentLosses_eq.
  split; [|split].
  - rewrite (Array_sort_of_permutation by_exit_time_asc
               (fun t => inject_Z (exit_ms t)) by_exit_time_asc_key
               (closed_trades trades) (closed_trades trades') Hc); [reflexivity|].
    apply NoDup_exit_ms_distinct; [|exact Hnd].
    intros a b E. simpl in E. apply (proj1 (inject_Z_injective _ _)) in E. exact E.
  - symmetry. now apply Permutation_length.
  - rewrite (Array_sort_of_permutation by_exit_time_desc
               (fun t => inject_Z (- exit_ms t)) by_exit_time_desc_key
               (losing_trades trades) (losing_trades trades') Hl); [reflexivity|].
    apply distinct_keys_filter.
    apply NoDup_exit_ms_distinct; [|exact Hnd].
    intros a b E. simpl in E. apply (proj1 (inject_Z_injective _ _)) in E. lia.
Qed.

(** X7 at the scenario trades, taken in reverse order. *)
Lemma fetch_order_irrelevant_witness :
  Permutation scenario_trades (rev scenario_trades)
  /\ NoDup (map exit_ms (closed_trades scenario_trades))
  /\ longestStreak (calculateLossMetrics (rev scenario_trades))
     = longestStreak (calculateLossMetrics scenario_trades)
  /\ totalLosses (calculateLossMetrics (rev scenario_trades))
     = totalLosses (calculateLossMetrics scenario_trades)
  /\ recentLosses (calculateLossMetrics (rev scenario_trades))
     = recentLosses (calculateLossMetrics scenario_trades).
Proof.
  assert (H1 : Permutation scenario_trades (rev scenario_trades))
    by apply Permutation_rev.
  assert (H2 : NoDup (map exit_ms (closed_trades scenario_trades))).
  { cbv [scenario_trades closed_trades closed_trade filter is_closed
         exit_price map exit_ms JS.new_Date exit_time].
    repeat (constructor; [simpl; intuition discriminate|]). constructor. }
  split; [exact H1|]. split; [exact H2|].
  exact (fetch_order_irrelevant scenario_trades (rev scenario_trades) H1 H2).
Defined.

(** ** A trade closed after all the others *)

Section SortLatest.
Context {A : Type} (compareFn : A -> A -> Q) (key : A -> Q).
Hypothesis compare_key : forall a b, (compareFn a b == key a - key b)%Q.

Lemma after_of_lt (x y : A) : (key y < key x)%Q -> JS.after compareFn x y = true.
Proof.
  intro H. unfold JS.after. apply Qltb_lt. rewrite compare_key. lra.
Qed.

Lemma insert_latest (t : A) (s : list A) :
  Forall (fun y => (key y < key t)%Q) s -> JS.insert compareFn t s = s ++ [t].
Proof.
  induction 1 as [|y s Hy _ IH]; simpl; [reflexivity|].
  now rewrite (after_of_lt t y Hy), IH.
Qed.

Lemma Array_sort_latest (l1 l2 : list A) (t : A) :
  Forall (fun y => (key y < key t)%Q) (l1 ++ l2) ->
  JS.Array_sort compareFn (l1 ++ t :: l2) = JS.Array_sort compareFn (l1 ++ l2) ++ [t].
Proof.
  induction l1 as [|x l1 IH]; simpl; intro H.
  - apply insert_latest. now apply Array_sort_Forall.
  - inversion H as [|? ? Hx Hrest]; subst.
    rewrite (IH Hrest).
    apply (insert_before_last compareFn key compare_key). lra.
Qed.
End SortLatest.

Lemma closed_trades_with_closed (l1 l2 : list Trade) (t : Trade) :
  is_closed t = true ->
  closed_trades (l1 ++ t :: l2) = closed_trades l1 ++ t :: closed_trades l2.
Proof.
  intro H. unfold closed_trades. rewrite filter_app. simpl. now rewrite H.
Qed.

Lemma closed_trades_app (l1 l2 : list Trade) :
  closed_trades (l1 ++ l2) = closed_trades l1 ++ closed_trades l2.
Proof. apply filter_app. Qed.

(** X8.  A closed trade whose [exit_time] is later than that of every
    other closed trade, wherever it stands in the list, never shortens
    the longest streak and lengthens it by at most one; if it is not a
    loss the streak stays as it is. *)
Theorem latest_trade_streak :
  forall (before rest : list Trade) (t : Trade),
    is_closed t = true ->
    Forall (fun u => (exit_ms u < exit_ms t)%Z) (closed_trades (before ++ rest)) ->
    let old := longestStreak (calculateLossMetrics (before ++ rest)) in
    let new := longestStreak (calculateLossMetrics (before ++ t :: rest)) in
    old <= new <= old + 1
    /\ (is_loss t = false -> new = old).
Proof.
  intros before rest t Hc Hlate old new. subst old new.
  rewrite !longestStreak_eq.
  rewrite (closed_trades_with_closed before rest t Hc).
  rewrite closed_trades_app in *.
  rewrite (Array_sort_latest by_exit_time_asc
             (fun u => inject_Z (exit_ms u)) by_exit_time_asc_key).
  - rewrite fold_left_app. simpl.
    set (chron := JS.Array_sort by_exit_time_asc
                    (closed_trades before ++ closed_trades rest)).
    pose proof (streak_inv_loop chron streak_inv_init) as (_ & _ & Hle).
    simpl in Hle.
    destruct (fold_left streak_step chron (0, 0)) as [m c].
    unfold streak_step. simpl in *.
    destruct (is_loss t); simpl; split; try lia; congruence.
  - eapply Forall_impl; [|exact Hlate].
    intros u Hu. simpl. now rewrite <- Zlt_Qlt.
Qed.

(** X8 at a loss closed after the scenario trades and put first in the
    list. *)
Lemma latest_trade_streak_witness :
  is_closed (closed_trade 15 5000%Z (-7)%Q) = true
  /\ Forall (fun u => (exit_ms u < exit_ms (closed_trade 15 5000%Z (-7)%Q))%Z)
       (closed_trades ([] ++ scenario_trades))
  /\ (longestStreak (calculateLossMetrics ([] ++ scenario_trades))
      <= longestStreak
           (calculateLossMetrics ([] ++ closed_trade 15 5000%Z (-7)%Q :: scenario_trades))
      <= longestStreak (calculateLossMetrics ([] ++ scenario_trades)) + 1
      /\ (is_loss (closed_trade 15 5000%Z (-7)%Q) = false ->
          longestStreak
            (calculateLossMetrics ([] ++ closed_trade 15 5000%Z (-7)%Q :: scenario_trades))
          = longestStreak (calculateLossMetrics ([] ++ scenario_trades)))).
Proof.
  assert (H1 : is_closed (closed_trade 15 5000%Z (-7)%Q) = true) by reflexivity.
  assert (H2 : Forall (fun u => (exit_ms u < exit_ms (closed_trade 15 5000%Z (-7)%Q))%Z)
                 (closed_trades ([] ++ scenario_trades)))
    by (repeat constructor).
  split; [exact H1|]. split; [exact H2|].
  exact (latest_trade_streak [] scenario_trades
           (closed_trade 15 5000%Z (-7)%Q) H1 H2).
Defined.

(** ** The charts of the overview *)

(** X9.  For a [win_rate] between 0 and 100 each slice of the win/loss
    chart lies between 0 and [total_trades].  At a [win_rate] of 0 the
    "Wins" slice is 0 and the "Losses" slice is [total_trades]; at a
    [win_rate] of 100 it is the other way round. *)
Theorem winLossData_slices :
  forall stats : Stats,
    let total := inject_Z (Z.of_nat (total_trades stats)) in
    ((0 <= win_rate stats <= 100)%Q ->
     (0 <= fst (winLossData stats) <= total)%Q
     /\ (0 <= snd (winLossData stats) <= total)%Q)
    /\ ((win_rate stats == 0)%Q ->
        (fst (winLossData stats) == 0)%Q /\ (snd (winLossData stats) == total)%Q)
    /\ ((win_rate stats == 100)%Q ->
        (fst (winLossData stats) == total)%Q /\ (snd (winLossData stats) == 0)%Q).
Proof.
  intros stats total. unfold winLossData. fold total. simpl.
  assert (Ht : (0 <= total)%Q).
  { subst total. change 0%Q with (inject_Z 0). rewrite <- Zle_Qle. lia. }
  split; [|split].
  - intros [H0 H100].
    assert (Hw : (0 <= win_rate stats / 100 <= 1)%Q).
    { split.
      - apply Qle_shift_div_l; lra.
      - apply Qle_shift_div_r; lra. }
    set (w := (win_rate stats / 100)%Q) in *.
    destruct Hw as [Hw0 Hw1].
    assert (H1 : (0 <= total * w)%Q) by (apply Qmult_le_0_compat; assumption).
    assert (H2 : (0 <= total * (1 - w))%Q) by (apply Qmult_le_0_compat; lra).
    assert (E : (total * (1 - w) == total - total * w)%Q) by ring.
    lra.
  - intro E. rewrite E. split; field.
  - intro E. rewrite E. split; field.
Qed.

(** X9 at twelve trades and a [win_rate] of 50: six wins, six losses. *)
Lemma winLossData_slices_witness :
  (0 <= win_rate (stats_with 0) <= 100)%Q
  /\ (0 <= fst (winLossData (stats_with 0)) <= 12)%Q
  /\ (0 <= snd (winLossData (stats_with 0)) <= 12)%Q.
Proof.
  assert (H : (0 <= win_rate (stats_with 0) <= 100)%Q)
    by (split; unfold Qle; simpl; lia).
  split; [exact H|].
  exact (proj1 (winLossData_slices (stats_with 0)) H).
Defined.

(** ** The page as a whole *)

Lemma losing_trades_nil_iff (trades : list Trade) :
  losing_trades trades = [] <->
  Forall (fun t => is_closed t && is_loss t = false) trades.
Proof.
  split; [|apply losing_trades_none].
  intro H. apply Forall_forall. intros t Hin.
  destruct (is_closed t) eqn:Hc; [|reflexivity].
  destruct (is_loss t) eqn:Hl; [|reflexivity].
  assert (Ht : In t (losing_trades trades)) by now apply losing_trades_In.
  rewrite H in Ht. contradiction.
Qed.

(** X10.  After loading, the Analytics page cannot be rendered without
    statistics: reading [stats.total_trades] raises.  With statistics it
    is rendered, and its "Losses Analysis" tab shows the "Perfect
    Record!" card exactly when no closed trade of the list has a negative
    [profit_loss]; in every other case it shows the loss cards computed
    from the list. *)
Theorem Analytics_losses_tab :
  forall (stats : option Stats) (trades : list Trade),
    match stats with
    | None => Analytics false stats trades = TypeError
    | Some s =>
        exists tab,
          Analytics false stats trades
          = Rendered (AnalyticsPage (winLossData s) (avgData s) tab)
          /\ (tab = PerfectRecord <->
              Forall (fun t => is_closed t && is_loss t = false) trades)
          /\ (tab <> PerfectRecord ->
              tab = LossAnalysis
                      (lossPercentage s (calculateLossMetrics trades))
                      (lossInsights s (calculateLossMetrics trades)))
    end.
Proof.
  intros [s|] trades; [|reflexivity].
  unfold Analytics, lossesTab.
  pose proof (totalLosses_eq trades) as Htot.
  destruct (Nat.ltb_spec 0 (totalLosses (calculateLossMetrics trades))) as [H|H];
    eexists; (split; [reflexivity|]); split.
  - split; [discriminate|].
    intro E. apply losing_trades_nil_iff in E.
    rewrite E in Htot. simpl in Htot. lia.
  - reflexivity.
  - split; [|reflexivity].
    intros _. apply losing_trades_nil_iff, length_zero_iff_nil. lia.
  - intro Hne. now contradiction Hne.
Qed.

(** ** The pair the insights name *)

Lemma In_pair_group (p : string) (groups : list PairLoss) :
  In p (map pair groups) -> exists e, In e groups /\ pair e = p.
Proof.
  intro H. apply in_map_iff in H. destruct H as (e & He & Hin). now exists e.
Qed.

Lemma pair_line_is_first_group (stats : Stats) (lm : LossMetrics) (p : string) :
  In (WorstPairLine p) (buildInsights stats lm) ->
  exists worst rest, lossByPair lm = worst :: rest /\ p = pair worst.
Proof.
  rewrite buildInsights_guard.
  destruct (0 <? totalLosses lm); [|intros []].
  unfold lossInsights, when.
  destruct (2 <? longestStreak lm), (JS.Qltb (average_loss stats) (-50)%Q),
    (lossByPair lm) as [|worst rest]; simpl; intro H;
    repeat (destruct H as [H|H]; try discriminate H); try contradiction;
    injection H as <-; now exists worst, rest.
Qed.

(** X11.  The pair that the insights call the most challenging one has
    losing trades, and no pair has lost more in total: its sum of
    [profit_loss] over its losing trades is at most that of the pair of
    any losing trade (pairs spelled like a member of [Object.prototype]
    apart, which get no group). *)
Theorem worst_pair_line_largest_total_loss :
  forall (stats : Stats) (trades : list Trade) (p : string),
    In (WorstPairLine p) (buildInsights stats (calculateLossMetrics trades)) ->
    losses_on p trades <> []
    /\ Forall (fun t =>
                 JS.inherited (currency_pair t) = true
                 \/ (sum_profit_loss (losses_on p trades)
                     <= sum_profit_loss (losses_on (currency_pair t) trades))%Q)
         (losing_trades trades).
Proof.
  intros stats trades p Hline.
  apply pair_line_is_first_group in Hline.
  destruct Hline as (worst & rest & Hfirst & ->).
  rewrite lossByPair_eq in Hfirst. unfold JS.Array_slice0 in Hfirst.
  pose proof (sorted_groups_sorted trades) as Hsorted.
  pose proof (sorted_groups_ok trades) as Hok.
  pose proof (Array_sort_perm by_total_asc (loss_groups trades)) as Hperm.
  destruct (JS.Array_sort by_total_asc (loss_groups trades)) as [|w tail] eqn:E;
    [discriminate Hfirst|].
  simpl in Hfirst. injection Hfirst as <- _.
  inversion Hsorted as [|? ? _ Hmin]; subst.
  inversion Hok as [|? ? (_ & Hcw & Htw & H1w) Hoktail]; subst.
  split.
  - intro Hnil. rewrite Hnil in Hcw. simpl in Hcw. lia.
  - apply Forall_forall. intros t Ht.
    destruct (JS.inherited (currency_pair t)) eqn:Hi; [now left|right].
    assert (Hin : In (currency_pair t) (map pair (w :: tail))).
    { eapply Permutation_in; [apply Permutation_map; symmetry; exact Hperm|].
      now apply loss_groups_cover. }
    apply In_pair_group in Hin. destruct Hin as (e & He & Hpe).
    rewrite <- Hpe, <- Htw.
    destruct He as [<-|He].
    + lra.
    + pose proof (proj1 (Forall_forall _ _) Hmin e He) as Hle. simpl in Hle.
      pose proof (proj1 (Forall_forall _ _) Hoktail e He) as (_ & _ & Hte & _).
      rewrite <- Hte. exact Hle.
Qed.

(** X11 at a win and a loss on the same pair. *)
Lemma worst_pair_line_largest_total_loss_witness :
  In (WorstPairLine "EURUSD")
    (buildInsights (stats_with 325)
       (calculateLossMetrics [winning_trade; losing_trade]))
  /\ losses_on "EURUSD" [winning_trade; losing_trade] <> []
  /\ Forall (fun t =>
               JS.inherited (currency_pair t) = true
               \/ (sum_profit_loss (losses_on "EURUSD" [winning_trade; losing_trade])
                   <= sum_profit_loss
                        (losses_on (currency_pair t) [winning_trade; losing_trade]))%Q)
       (losing_trades [winning_trade; losing_trade]).
Proof.
  assert (H : In (WorstPairLine "EURUSD")
                (buildInsights (stats_with 325)
                   (calculateLossMetrics [winning_trade; losing_trade])))
    by (vm_compute; tauto).
  split; [exact H|].
  exact (worst_pair_line_largest_total_loss (stats_with 325)
           [winning_trade; losing_trade] "EURUSD" H).
Defined.

(** ** Days left *)

Lemma ms_per_day_pos : (0 < inject_Z ms_per_day)%Q.
Proof. reflexivity. Qed.

(** [Math.ceil] of the days between two instants, against whole days. *)
Lemma daysLeft_le (now : Z) (goal : Goal) (k : Z) :
  (daysLeft now goal <= k)%Z <-> (target_date goal - now <= k * ms_per_day)%Z.
Proof.
  unfold daysLeft, JS.Math_ceil.
  set (a := (target_date goal - now)%Z).
  pose proof ms_per_day_pos as Hm.
  rewrite (Zle_Qle a), inject_Z_mult.
  split; intro H.
  - assert (Hq : (inject_Z a / inject_Z ms_per_day <= inject_Z k)%Q).
    { eapply Qle_trans; [apply Qle_ceiling|]. now rewrite <- Zle_Qle. }
    assert (E : (inject_Z a == inject_Z a / inject_Z ms_per_day * inject_Z ms_per_day)%Q)
      by (field; lra).
    rewrite E. apply Qmult_le_compat_r; [exact Hq|lra].
  - rewrite <- (Qceiling_Z k). apply Qceiling_resp_le.
    apply Qle_shift_div_r; [exact Hm|exact H].
Qed.

Lemma daysLeft_later (now now' : Z) (goal : Goal) :
  (now <= now')%Z -> (daysLeft now' goal <= daysLeft now goal)%Z.
Proof.
  intro H. apply daysLeft_le.
  pose proof (proj1 (daysLeft_le now goal (daysLeft now goal)) (Z.le_refl _)).
  lia.
Qed.

Lemma status_by_days (stats : option Stats) (now : Z) (goal : Goal) :
  completed goal = false ->
  JS.geb (calculateProgress stats goal) 100 = false ->
  getGoalStatus stats now goal =
  if (daysLeft now goal <? 0)%Z then "expired"%string
  else if (daysLeft now goal <=? 7)%Z then "urgent"%string
  else "active"%string.
Proof.
  intros Hc Hp. unfold getGoalStatus. now rewrite Hc, Hp.
Qed.

(** X12.  For a goal that is neither completed nor at 100 of progress,
    the status follows from the time left until the target date: it is
    [expired] once the target date lies a full day or more in the past,
    [urgent] from there up to seven days ahead, and [active] beyond.  A
    goal whose date passed less than a day ago is still [urgent]. *)
Theorem goal_status_time_windows :
  forall (stats : option Stats) (now : Z) (goal : Goal),
    completed goal = false ->
    JS.geb (calculateProgress stats goal) 100 = false ->
    let left := (target_date goal - now)%Z in
    let status := getGoalStatus stats now goal in
    (status = "expired"%string <-> (left <= - ms_per_day)%Z)
    /\ (status = "urgent"%string <->
        (- ms_per_day < left <= 7 * ms_per_day)%Z)
    /\ (status = "active"%string <-> (7 * ms_per_day < left)%Z).
Proof.
  intros stats now goal Hc Hp left status. subst status.
  rewrite (status_by_days stats now goal Hc Hp).
  pose proof (daysLeft_le now goal (-1)) as H1.
  pose proof (daysLeft_le now goal 7) as H7.
  fold left in H1, H7.
  destruct (Z.ltb_spec (daysLeft now goal) 0) as [Hd|Hd].
  - split; [|split]; split; intro H; try discriminate H; try reflexivity; lia.
  - destruct (Z.leb_spec (daysLeft now goal) 7) as [Hd7|Hd7];
      (split; [|split]); split; intro H; try discriminate H; try reflexivity; lia.
Qed.

(** X12 at a goal whose date passed twelve hours ago: it is [urgent]. *)
Lemma goal_status_time_windows_witness :
  completed sample_goal = false
  /\ JS.geb (calculateProgress (Some (stats_with 400)) sample_goal) 100 = false
  /\ (getGoalStatus (Some (stats_with 400)) 907200000 sample_goal = "expired"%string
      <-> (target_date sample_goal - 907200000 <= - ms_per_day)%Z)
  /\ (getGoalStatus (Some (stats_with 400)) 907200000 sample_goal = "urgent"%string
      <-> (- ms_per_day < target_date sample_goal - 907200000 <= 7 * ms_per_day)%Z)
  /\ (getGoalStatus (Some (stats_with 400)) 907200000 sample_goal = "active"%string
      <-> (7 * ms_per_day < target_date sample_goal - 907200000)%Z).
Proof.
  split; [reflexivity|]. split; [reflexivity|].
  exact (goal_status_time_windows (Some (stats_with 400)) 907200000 sample_goal
           eq_refl eq_refl).
Defined.

(** X13.  The "Days Left" number is never negative; it is 0 exactly when
    the target date is not in the future, and otherwise the number of
    days, a started day counting as a whole one. *)
Theorem daysLeftShown_whole_days :
  forall (now : Z) (goal : Goal),
    let shown := daysLeftShown now goal in
    (0 <= shown)%Z
    /\ (shown = 0%Z <-> (target_date goal <= now)%Z)
    /\ ((shown - 1) * ms_per_day < target_date goal - now \/ shown = 0%Z)%Z
    /\ (target_date goal - now <= shown * ms_per_day)%Z.
Proof.
  intros now goal shown. subst shown. unfold daysLeftShown.
  pose proof (daysLeft_le now goal 0) as H0.
  pose proof (daysLeft_le now goal (daysLeft now goal)) as Hself.
  pose proof (daysLeft_le now goal (daysLeft now goal - 1)) as Hpred.
  destruct (Z.ltb_spec 0 (daysLeft now goal)) as [Hd|Hd].
  - split; [lia|]. split; [split; lia|]. split; [left; lia|lia].
  - split; [lia|]. split; [split; lia|]. split; [now right|lia].
Qed.

(** X14.  As time passes the number of days left never grows, and a goal
    that is [expired] stays [expired]. *)
Theorem expired_stays_expired :
  forall (stats : option Stats) (now later : Z) (goal : Goal),
    (now <= later)%Z ->
    (daysLeft later goal <= daysLeft now goal)%Z
    /\ (getGoalStatus stats now goal = "expired"%string ->
        getGoalStatus stats later goal = "expired"%string).
Proof.
  intros stats now later goal Hle.
  pose proof (daysLeft_later now later goal Hle) as Hd.
  split; [exact Hd|].
  unfold getGoalStatus.
  destruct (completed goal); [discriminate|].
  destruct (JS.geb (calculateProgress stats goal) 100); [discriminate|].
  destruct (Z.ltb_spec (daysLeft now goal) 0) as [H0|H0].
  - intros _. destruct (Z.ltb_spec (daysLeft later goal) 0); [reflexivity|lia].
  - destruct (daysLeft now goal <=? 7)%Z; discriminate.
Qed.

(** X14 at a goal two days and then three days past its date. *)
Lemma expired_stays_expired_witness :
  (1036800000 <= 1123200000)%Z
  /\ (daysLeft 1123200000 sample_goal <= daysLeft 1036800000 sample_goal)%Z
  /\ (getGoalStatus (Some (stats_with 400)) 1036800000 sample_goal = "expired"%string ->
      getGoalStatus (Some (stats_with 400)) 1123200000 sample_goal = "expired"%string).
Proof.
  assert (H : (1036800000 <= 1123200000)%Z) by lia.
  split; [exact H|].
  exact (expired_stays_expired (Some (stats_with 400)) 1036800000 1123200000
           sample_goal H).
Defined.

(** ** Progress and the "Complete" button *)

Lemma or_zero_eq (v : option Q) : (or_zero v == JS.ToNumber v)%Q.
Proof.
  destruct v as [q|]; simpl; [|reflexivity].
  destruct (Qeq_bool q 0) eqn:E; [|reflexivity].
  apply Qeq_bool_iff in E. now rewrite E.
Qed.

Lemma progress_full_iff (s : Stats) (goal : Goal) :
  (0 < target_amount goal)%Q ->
  JS.geb (calculateProgress (Some s) goal) 100 = true
  <-> (target_amount goal <= total_profit_loss s)%Q.
Proof.
  intro Hpos.
  assert (Hnz : ~ (target_amount goal == 0)%Q) by lra.
  rewrite (progress_with_stats s goal Hnz). simpl.
  set (raw := (total_profit_loss s / target_amount goal * 100)%Q).
  assert (Hraw : (100 <= raw)%Q <-> (target_amount goal <= total_profit_loss s)%Q).
  { unfold raw. split; intro H.
    - assert (H1 : (1 <= total_profit_loss s / target_amount goal)%Q) by lra.
      assert (E : (total_profit_loss s
                   == total_profit_loss s / target_amount goal * target_amount goal)%Q)
        by (field; exact Hnz).
      rewrite E.
      setoid_replace (target_amount goal) with (1 * target_amount goal)%Q at 1 by ring.
      apply Qmult_le_compat_r; lra.
    - assert (H1 : (1 <= total_profit_loss s / target_amount goal)%Q)
        by (apply Qle_shift_div_l; lra).
      lra. }
  rewrite <- Hraw.
  destruct (Qle_bool raw 100) eqn:E; rewrite Qle_bool_iff.
  - reflexivity.
  - split; [intros _|intros _; lra].
    apply Qlt_le_weak, Qnot_le_lt. intro H.
    apply Qle_bool_iff in H. congruence.
Qed.

(** X15.  With statistics loaded and a positive target, the "Complete"
    button is offered exactly for the goals that are not completed and
    have nothing left to earn: the "Remaining" amount is zero or
    negative. *)
Theorem completeButton_iff_nothing_remaining :
  forall (s : Stats) (now : Z) (goal : Goal),
    (0 < target_amount goal)%Q ->
    completeButton (Some s) now goal = true
    <-> completed goal = false /\ (remaining (Some s) goal <= 0)%Q.
Proof.
  intros s now goal Hpos.
  assert (Hrem : (remaining (Some s) goal <= 0)%Q
                 <-> (target_amount goal <= total_profit_loss s)%Q).
  { unfold remaining. simpl option_map.
    rewrite (or_zero_eq (Some (total_profit_loss s))). simpl. split; lra. }
  rewrite Hrem, <- (progress_full_iff s goal Hpos).
  unfold completeButton, getGoalStatus.
  destruct (completed goal).
  - rewrite andb_false_r. split; [discriminate|intros [H _]; discriminate H].
  - destruct (JS.geb (calculateProgress (Some s) goal) 100).
    + split; intros _; [split|]; reflexivity.
    + split; [|intros [_ H]; discriminate H].
      destruct (daysLeft now goal <? 0)%Z; [discriminate|].
      destruct (daysLeft now goal <=? 7)%Z; discriminate.
Qed.

(** X15 at a goal of 1000 with 1200 earned. *)
Lemma completeButton_iff_nothing_remaining_witness :
  (0 < target_amount sample_goal)%Q
  /\ (completeButton (Some (stats_with 1200)) 0 sample_goal = true
      <-> completed sample_goal = false
          /\ (remaining (Some (stats_with 1200)) sample_goal <= 0)%Q).
Proof.
  split; [reflexivity|].
  exact (completeButton_iff_nothing_remaining (stats_with 1200) 0%Z sample_goal
           eq_refl).
Defined.

(** X16.  Until the statistics are loaded no goal is shown as [achieved]
    and no "Complete" button is offered, whatever the goal; the
    "Remaining" amount is then the whole target. *)
Theorem nothing_achieved_without_stats :
  forall (now : Z) (goal : Goal),
    getGoalStatus None now goal <> "achieved"%string
    /\ completeButton None now goal = false
    /\ (remaining None goal == target_amount goal)%Q.
Proof.
  intros now goal.
  assert (H : getGoalStatus None now goal <> "achieved"%string).
  { unfold getGoalStatus. simpl.
    destruct (completed goal); [discriminate|].
    destruct (daysLeft now goal <? 0)%Z; [discriminate|].
    destruct (daysLeft now goal <=? 7)%Z; discriminate. }
  split; [exact H|]. split.
  - unfold completeButton.
    destruct (String.eqb_spec (getGoalStatus None now goal) "achieved");
      [contradiction|reflexivity].
  - unfold remaining. simpl. ring.
Qed.

(** X17.  With a positive target, progress never decreases when the
    total profit grows. *)
Theorem progress_monotone :
  forall (s1 s2 : Stats) (goal : Goal),
    (0 < target_amount goal)%Q ->
    (total_profit_loss s1 <= total_profit_loss s2)%Q ->
    Num_le (calculateProgress (Some s1) goal) (calculateProgress (Some s2) goal).
Proof.
  intros s1 s2 goal Hpos Hle.
  assert (Hnz : ~ (target_amount goal == 0)%Q) by lra.
  rewrite (progress_with_stats s1 goal Hnz), (progress_with_stats s2 goal Hnz).
  cbn [Num_le].
  assert (Hraw : (total_profit_loss s1 / target_amount goal * 100
                  <= total_profit_loss s2 / target_amount goal * 100)%Q).
  { apply Qmult_le_compat_r; [|lra].
    unfold Qdiv. apply Qmult_le_compat_r; [exact Hle|].
    apply Qlt_le_weak, Qinv_lt_0_compat, Hpos. }
  destruct (Qle_bool (total_profit_loss s1 / target_amount goal * 100) 100) eqn:E1;
    destruct (Qle_bool (total_profit_loss s2 / target_amount goal * 100) 100) eqn:E2;
    try apply Qle_bool_iff in E1; try apply Qle_bool_iff in E2; try lra.
  exfalso.
  assert (H2 : (total_profit_loss s2 / target_amount goal * 100 <= 100)%Q)
    by exact E2.
  assert (H1 : ~ (total_profit_loss s1 / target_amount goal * 100 <= 100)%Q).
  { intro H. apply Qle_bool_iff in H. congruence. }
  apply H1. lra.
Qed.

(** X17 at profits of 400 and 700 towards a goal of 1000. *)
Lemma progress_monotone_witness :
  (0 < target_amount sample_goal)%Q
  /\ (total_profit_loss (stats_with 400) <= total_profit_loss (stats_with 700))%Q
  /\ Num_le (calculateProgress (Some (stats_with 400)) sample_goal)
       (calculateProgress (Some (stats_with 700)) sample_goal).
Proof.
  assert (H1 : (0 < target_amount sample_goal)%Q) by reflexivity.
  assert (H2 : (total_profit_loss (stats_with 400)
                <= total_profit_loss (stats_with 700))%Q)
    by (unfold Qle; simpl; lia).
  split; [exact H1|]. split; [exact H2|].
  exact (progress_monotone (stats_with 400) (stats_with 700) sample_goal H1 H2).
Defined.

(** ** The "Active Goals" card *)

Lemma status_completed_iff (stats : option Stats) (now : Z) (goal : Goal) :
  String.eqb (getGoalStatus stats now goal) "completed" = completed goal.
Proof.
  unfold getGoalStatus.
  destruct (completed goal); [reflexivity|].
  destruct (JS.geb (calculateProgress stats goal) 100); [reflexivity|].
  destruct (daysLeft now goal <? 0)%Z; [reflexivity|].
  destruct (daysLeft now goal <=? 7)%Z; reflexivity.
Qed.

(** X18.  The "Active Goals" card counts every goal whose status is not
    [completed]: the [achieved], the [urgent] and the [active] ones, and
    the [expired] ones as well. *)
Theorem activeGoals_counts_all_but_completed :
  forall (stats : option Stats) (now : Z) (goals : list Goal),
    activeGoals goals
    = length (filter (fun g => negb (String.eqb (getGoalStatus stats now g)
                                       "completed"))
                goals)
    /\ activeGoals goals
       + length (filter (fun g => String.eqb (getGoalStatus stats now g) "completed")
                   goals)
       = length goals.
Proof.
  intros stats now goals. unfold activeGoals, JS.Array_filter.
  induction goals as [|g goals [IH1 IH2]]; simpl; [split; reflexivity|].
  rewrite (status_completed_iff stats now g).
  destruct (completed g); simpl; split; lia.
Qed.

(** ** A goal with a target of zero *)

(** X19.  For a target amount of 0 the division has no finite result:
    progress is 100 as soon as there is any profit (the infinity is cut
    at 100), not a number for a profit of 0, and minus infinity for a
    loss.  Such a goal, if not completed, is [achieved] exactly when the
    total profit is positive. *)
Theorem progress_of_zero_target :
  forall (s : Stats) (now : Z) (goal : Goal),
    (target_amount goal == 0)%Q ->
    ((0 < total_profit_loss s)%Q -> calculateProgress (Some s) goal = JS.Fin 100)
    /\ ((total_profit_loss s == 0)%Q -> calculateProgress (Some s) goal = JS.NaN)
    /\ ((total_profit_loss s < 0)%Q -> calculateProgress (Some s) goal = JS.NegInf)
    /\ (completed goal = false ->
        (getGoalStatus (Some s) now goal = "achieved"%string
         <-> (0 < total_profit_loss s)%Q)).
Proof.
  intros s now goal Hz.
  assert (Hdiv : calculateProgress (Some s) goal =
                 if Qeq_bool (total_profit_loss s) 0 then JS.NaN
                 else if JS.Qltb 0 (total_profit_loss s) then JS.Fin 100
                      else JS.NegInf).
  { unfold calculateProgress, JS.div.
    rewrite (proj2 (Qeq_bool_iff _ _) Hz).
    destruct (Qeq_bool (total_profit_loss s) 0); [reflexivity|].
    destruct (JS.Qltb 0 (total_profit_loss s)); reflexivity. }
  assert (Hcases :
    ((total_profit_loss s == 0)%Q /\ calculateProgress (Some s) goal = JS.NaN)
    \/ ((0 < total_profit_loss s)%Q /\ calculateProgress (Some s) goal = JS.Fin 100)
    \/ ((total_profit_loss s < 0)%Q /\ calculateProgress (Some s) goal = JS.NegInf)).
  { rewrite Hdiv.
    destruct (Qeq_bool (total_profit_loss s) 0) eqn:E0.
    - left. split; [now apply Qeq_bool_iff|reflexivity].
    - apply Qeq_bool_false in E0.
      destruct (JS.Qltb 0 (total_profit_loss s)) eqn:E1.
      + right; left. split; [now apply Qltb_lt|reflexivity].
      + right; right. apply Qltb_ge in E1. split; [lra|reflexivity]. }
  split; [|split; [|split]].
  - intro H. destruct Hcases as [[H0 _]|[[_ E]|[H0 _]]]; [lra|exact E|lra].
  - intro H. destruct Hcases as [[_ E]|[[H0 _]|[H0 _]]]; [exact E|lra|lra].
  - intro H. destruct Hcases as [[H0 _]|[[H0 _]|[_ E]]]; [lra|lra|exact E].
  - intro Hc. unfold getGoalStatus. rewrite Hc.
    destruct Hcases as [[H0 E]|[[H0 E]|[H0 E]]]; rewrite E; simpl.
    + split; [|lra].
      destruct (daysLeft now goal <? 0)%Z; [discriminate|].
      destruct (daysLeft now goal <=? 7)%Z; discriminate.
    + split; [intros _; exact H0|reflexivity].
    + split; [|lra].
      destruct (daysLeft now goal <? 0)%Z; [discriminate|].
      destruct (daysLeft now goal <=? 7)%Z; discriminate.
Qed.

(** X19 at a goal with target 0 and a profit of 325. *)
Lemma progress_of_zero_target_witness :
  (target_amount zero_target_goal == 0)%Q
  /\ ((0 < total_profit_loss (stats_with 325))%Q ->
      calculateProgress (Some (stats_with 325)) zero_target_goal = JS.Fin 100)
  /\ ((total_profit_loss (stats_with 325) == 0)%Q ->
      calculateProgress (Some (stats_with 325)) zero_target_goal = JS.NaN)
  /\ ((total_profit_loss (stats_with 325) < 0)%Q ->
      calculateProgress (Some (stats_with 325)) zero_target_goal = JS.NegInf)
  /\ (completed zero_target_goal = false ->
      (getGoalStatus (Some (stats_with 325)) 0 zero_target_goal = "achieved"%string
       <-> (0 < total_profit_loss (stats_with 325))%Q)).
Proof.
  assert (H : (target_amount zero_target_goal == 0)%Q) by reflexivity.
  split; [exact H|].
  exact (progress_of_zero_target (stats_with 325) 0%Z zero_target_goal H).
Defined.

(** ** The trade detail page *)

(** X20.  The performance card of the trade detail page marks as losing
    (downward icon, no sign prefix) exactly the trades that the loss
    metrics take for losses, a [profit_loss] below 0; a trade without
    [profit_loss] is shown as still open, yet with the glow of a loss. *)
Theorem performance_card_marks_losses :
  forall t : Trade,
    (performance t = StillOpen <-> profit_loss t = None)
    /\ ((exists amount, performance t = Result TrendingDown EmptyString amount)
        <-> is_loss t = true)
    /\ ((exists amount, performance t = Result TrendingUp "+" amount)
        <-> profit_loss t <> None /\ is_loss t = false)
    /\ (performanceGlow t = loss_glow <-> profit_loss t = None \/ is_loss t = true).
Proof.
  intro t. unfold performance, performanceGlow, is_loss, JS.Qltb.
  destruct (profit_loss t) as [q|]; simpl.
  - destruct (Qle_bool 0 q); simpl.
    + split; [split; discriminate|].
      split; [split; [intros [a H]; discriminate H|discriminate]|].
      split; [split; [intros _; split; [discriminate|reflexivity]|intros _; now exists q]|].
      split; [discriminate|intros [H|H]; discriminate H].
    + split; [split; discriminate|].
      split; [split; [reflexivity|intros _; now exists q]|].
      split; [split; [intros [a H]; discriminate H|intros [_ H]; discriminate H]|].
      split; [intros _; now right|reflexivity].
  - split; [split; reflexivity|].
    split; [split; [intros [a H]; discriminate H|discriminate]|].
    split; [split; [intros [a H]; discriminate H|intros [H _]; now contradiction H]|].
    split; [intros _; now left|reflexivity].
Qed.
